(** * carl-torch: the data loader [ml/utils/loading.py]

    A shallow embedding of [Loader.loading] and of the numpy, pandas and
    scikit-learn operations it calls, followed by the properties of the
    loader that the specification states.

    Numbers.  The tables hold float64 values; they are modelled by exact
    rationals [Q], so that means, variances and the two-decimal rounding are
    the ideal ones.  A NaN can only arise from the statistics of a column
    with too few rows and is modelled by [None].  The standard deviation is
    the square root of a rational variance; the comparisons against
    [mean ± 3 * std] are decided on squares (see [lt_upper], [gt_lower] and
    the lemmas [lt_upper_lower_bound], [lt_upper_upper_bound] and their
    counterparts for [gt_lower], which relate them to every rational bound
    of the root). *)

From Stdlib Require Import QArith Qround Qabs ZArith Lia Lqa Permutation.
From stdpp Require Import base list strings.

Open Scope string_scope.

(** ** Numeric helpers *)

Definition Qltb (a b : Q) : bool := negb (Qle_bool b a).

(** [np.sum] of a one-dimensional array; the running sum is kept in lowest
    terms. *)
Definition Qsum (s : list Q) : Q := foldr (fun v acc => Qred (v + acc)) 0%Q s.

Definition Qof_nat (n : nat) : Q := inject_Z (Z.of_nat n).

(** [Series.mean()]: NaN on an empty column. *)
Definition mean (s : list Q) : option Q :=
  match s with
  | [] => None
  | _ => Some (Qsum s / Qof_nat (length s))%Q
  end.

(** [Series.var()] with pandas' default [ddof=1]: the sum of the squared
    deviations over [count - 1]; NaN when the column has fewer than two
    rows. *)
Definition var (s : list Q) : option Q :=
  match mean s with
  | None => None
  | Some avg =>
      if (length s <=? 1)%nat then None
      else Some (Qsum (map (fun v => (avg - v) * (avg - v))%Q s)
                 / Qof_nat (length s - 1))%Q
  end.

(** A limit [m + k * sqrt v] or [m - k * sqrt v] of the outlier filter, kept
    symbolically: [Series.std()] is [sqrt] of [Series.var()], which is not
    rational in general.  [None] is NaN. *)
Record Limit := { lim_mean : Q; lim_factor : Q; lim_var : Q }.

(** [s.mean() + s.std() * factor] *)
Definition upper_limit (s : list Q) (factor : Q) : option Limit :=
  match mean s, var s with
  | Some m, Some v => Some {| lim_mean := m; lim_factor := factor; lim_var := v |}
  | _, _ => None
  end.

(** [s.mean() - s.std() * factor] *)
Definition lower_limit (s : list Q) (factor : Q) : option Limit :=
  match mean s, var s with
  | Some m, Some v => Some {| lim_mean := m; lim_factor := factor; lim_var := v |}
  | _, _ => None
  end.

(** [x < m + k * sqrt v], for [0 <= k] and [0 <= v]: true when [x < m],
    otherwise decided on the squares.  A comparison with NaN is false. *)
Definition lt_upper (x : Q) (lim : option Limit) : bool :=
  match lim with
  | None => false
  | Some l =>
      let d := (x - lim_mean l)%Q in
      Qltb d 0 || Qltb (d * d) (lim_factor l * lim_factor l * lim_var l)
  end.

(** [x > m - k * sqrt v], for [0 <= k] and [0 <= v]. *)
Definition gt_lower (x : Q) (lim : option Limit) : bool :=
  match lim with
  | None => false
  | Some l =>
      let d := (lim_mean l - x)%Q in
      Qltb d 0 || Qltb (d * d) (lim_factor l * lim_factor l * lim_var l)
  end.

(** Round half to even to the nearest integer ([np.rint]). *)
Definition rint (q : Q) : Z :=
  let f := Qfloor q in
  let r := (q - inject_Z f)%Q in
  match (r ?= 1 # 2)%Q with
  | Lt => f
  | Gt => (f + 1)%Z
  | Eq => if Z.even f then f else (f + 1)%Z
  end.

(** [np.round(v, decimals=2)]: scale by 100, round half to even, scale
    back. *)
Definition round2 (q : Q) : Q := (rint (q * 100) # 100)%Q.

(** [int(v)] on a float: truncation toward zero. *)
Definition int_of_float (q : Q) : Z := Z.quot (Qnum q) (Z.pos (Qden q)).

(** A value with at most two decimals. *)
Definition two_decimals (q : Q) : Prop := exists z : Z, (q == z # 100)%Q.

(** ** Arrays and tables *)

(** A two-dimensional [ndarray]: its second dimension is part of the shape
    also when there is no row. *)
Record ndarray := { shape1 : nat; data : list (list Q) }.

Definition shape0 (a : ndarray) : nat := length (data a).

(** A pandas [DataFrame] with a default row index. *)
Record DataFrame := { columns : list string; rows : list (list Q) }.

(** [df.values], [df.to_numpy()] *)
Definition values (df : DataFrame) : ndarray :=
  {| shape1 := length (columns df); data := rows df |}.
Definition to_numpy (df : DataFrame) : ndarray := values df.

(** [len(df)] *)
Definition len (df : DataFrame) : nat := length (rows df).

(** [a[:n, :]] *)
Definition slice_to (n : nat) (a : ndarray) : ndarray :=
  {| shape1 := shape1 a; data := take n (data a) |}.

(** [a[-n:, :]]; in Python [-0] is [0], so [a[-0:, :]] is all of [a]. *)
Definition slice_last (n : nat) (a : ndarray) : ndarray :=
  {| shape1 := shape1 a;
     data := if (n =? 0)%nat then data a else drop (length (data a) - n) (data a) |}.

(** ** Exceptions, effects and the monad of the loader *)

Inductive Exn :=
| TypeError
| AttributeError
| UnboundLocalError
| KeyError (key : string)
| IndexError
| ValueError (msg : string)
| LoadFailure (file : string).

(** The effects of a call that an outside observer sees, in order. *)
Inductive Event :=
| MkDirs (paths : list string)
| Loaded (file : string) (variables : list string)
| Printed (what : string) (value : option nat)
| SaveFig (path : string)
| Saved (path : string) (a : ndarray)
| Drawn (legend : list string).

(** *** pandas *)

Fixpoint index_of (c : string) (cs : list string) : option nat :=
  match cs with
  | [] => None
  | c' :: cs' => if String.eqb c c' then Some 0%nat
                 else option_map S (index_of c cs')
  end.

(** [df[column]]: the values of one column, [KeyError] if there is none of
    that name. *)
Definition get_column (df : DataFrame) (column : string) : Exn + list Q :=
  match index_of column (columns df) with
  | None => inl (KeyError column)
  | Some i => inr (map (fun r => default 0%Q (r !! i)) (rows df))
  end.

(** [rows[mask]]: the rows at which the mask is true, in their order. *)
Fixpoint compress {A} (mask : list bool) (l : list A) : list A :=
  match mask, l with
  | b :: mask', a :: l' => if b then a :: compress mask' l' else compress mask' l'
  | _, _ => []
  end.

(** [df[mask]] for a boolean series on the same index. *)
Definition boolean_index (df : DataFrame) (mask : list bool) : DataFrame :=
  {| columns := columns df; rows := compress mask (rows df) |}.

(** [(s < upper_lim) & (s > lower_lim)] *)
Definition within (s : list Q) (upper_lim lower_lim : option Limit) : list bool :=
  map (fun v => lt_upper v upper_lim && gt_lower v lower_lim) s.

(** [df.round(decimals=2)] *)
Definition round_frame (df : DataFrame) : DataFrame :=
  {| columns := columns df; rows := map (map round2) (rows df) |}.

(** Positional selection of rows by an integer array; an index out of
    range raises [IndexError]. *)
Fixpoint take_rows {A} (idx : list nat) (l : list A) : Exn + list A :=
  match idx with
  | [] => inr []
  | i :: idx' =>
      match l !! i, take_rows idx' l with
      | Some a, inr r => inr (a :: r)
      | _, _ => inl IndexError
      end
  end.

(** [df.iloc[idx]] *)
Definition iloc (df : DataFrame) (idx : list nat) : Exn + DataFrame :=
  match take_rows idx (rows df) with
  | inl e => inl e
  | inr r => inr {| columns := columns df; rows := r |}
  end.

(** [a[idx]] *)
Definition fancy (a : ndarray) (idx : list nat) : Exn + ndarray :=
  match take_rows idx (data a) with
  | inl e => inl e
  | inr r => inr {| shape1 := shape1 a; data := r |}
  end.

(** *** numpy *)

(** [np.zeros(n)] *)
Definition zeros (n : nat) : list Q := replicate n 0%Q.

(** [y[k:] = v] on a one-dimensional array. *)
Definition assign_from (k : nat) (v : Q) (y : list Q) : list Q :=
  take k y ++ map (fun _ => v) (drop k y).

(** [y.reshape((-1, 1))] on a one-dimensional array. *)
Definition reshape_column (y : list Q) : ndarray :=
  {| shape1 := 1; data := map (fun v => [v]) y |}.

(** [np.vstack([a, b])]: the second dimensions must agree. *)
Definition vstack (a b : ndarray) : Exn + ndarray :=
  if (shape1 a =? shape1 b)%nat
  then inr {| shape1 := shape1 a; data := data a ++ data b |}
  else inl (ValueError "all the input array dimensions except for the concatenation axis must match exactly").

(** [p.cumsum()] *)
Fixpoint cumsum_from (acc : Q) (p : list Q) : list Q :=
  match p with
  | [] => []
  | v :: p' => (acc + v)%Q :: cumsum_from (acc + v)%Q p'
  end.
Definition cumsum (p : list Q) : list Q := cumsum_from 0%Q p.

(** [a.searchsorted(v, side='right')] on a sorted array: the number of
    leading elements that are [<= v]. *)
Fixpoint searchsorted_right (a : list Q) (v : Q) : nat :=
  match a with
  | [] => 0%nat
  | c :: a' => if Qle_bool c v then S (searchsorted_right a' v) else 0%nat
  end.

(** [s / d] on a series.  A division by zero yields NaN or infinite
    entries, for which [None] stands. *)
Definition series_div (s : list Q) (d : Q) : option (list Q) :=
  if Qeq_bool d 0 then None else Some (map (fun v => v / d)%Q s).

(** *** scikit-learn *)

(** [_validate_shuffle_split(n_samples, test_size, train_size=None)] for a
    float [test_size]: [n_test = ceil(test_size * n_samples)], the rest is
    the train set, which must not be empty. *)
Definition validate_shuffle_split (n_samples : nat) (test_size : Q) : Exn + (nat * nat) :=
  let n_test := Z.to_nat (Qceiling (test_size * Qof_nat n_samples)) in
  let n_train := (n_samples - n_test)%nat in
  if (n_train =? 0)%nat
  then inl (ValueError "the resulting train set will be empty")
  else inr (n_train, n_test).

(** The external collaborators: numpy's global [RandomState], left
    abstract ([random_sample g n] is [np.random.random_sample(n)] and
    [randint g hi n] is [np.random.randint(0, hi, size=n)], each with the
    generator's next state); [permutation42 n], which is
    [np.random.RandomState(42).permutation(n)], the shuffle drawn by
    [train_test_split(..., random_state=42)]; and [tools.load], the reader
    of the ROOT files. *)
Class Env := {
  Rng : Type;
  random_sample : Rng -> nat -> list Q * Rng;
  randint : Rng -> nat -> nat -> list nat * Rng;
  permutation42 : nat -> list nat;
  load : string -> list string -> Exn + DataFrame
}.

(** The final values of the local variables of [Loader.loading].  The call
    returns [(x, y)]. *)
Module L.
Record t := {
  variables : list string;
  legend : option (list string);
  x0 : DataFrame;
  x1 : DataFrame;
  n_target : nat;
  X0 : ndarray;
  X0_test : ndarray;
  X1 : ndarray;
  x : ndarray;
  y : ndarray;
  X_train : ndarray;
  X_val : ndarray;
  X_test : ndarray;
  y_train : ndarray;
  y_val : ndarray;
  y_test : ndarray
}.
End L.

Section Loader.

Context {E : Env}.

Record World := { rng : Rng; trace : list Event }.

Definition M (A : Type) : Type := World -> World * (Exn + A).

Definition ret {A} (a : A) : M A := fun w => (w, inr a).
Definition raise {A} (e : Exn) : M A := fun w => (w, inl e).
Definition bind {A B} (m : M A) (k : A -> M B) : M B :=
  fun w => match m w with
           | (w', inl e) => (w', inl e)
           | (w', inr a) => k a w'
           end.
Definition emit (ev : Event) : M unit :=
  fun w => ({| rng := rng w; trace := trace w ++ [ev] |}, inr tt).
Definition lift {A} (r : Exn + A) : M A := fun w => (w, r).

Notation "'let*' p ':=' m 'in' k" := (bind m (fun p => k))
  (at level 10, p pattern, m at level 100, k at level 200).
Notation "m ';;' k" := (bind m (fun _ => k))
  (at level 100, k at level 200, right associativity).

(** [np.random.random_sample(n)] and [np.random.randint(0, hi, size=n)] on
    the global generator. *)
Definition np_random_sample (n : nat) : M (list Q) :=
  fun w => let (u, g) := random_sample (rng w) n in
           ({| rng := g; trace := trace w |}, inr u).
Definition np_randint (hi n : nat) : M (list nat) :=
  fun w => let (i, g) := randint (rng w) hi n in
           ({| rng := g; trace := trace w |}, inr i).

(** [np.random.choice(range(pop_size), size, replace=True)] *)
Definition choice (pop_size size : nat) : M (list nat) :=
  if (pop_size =? 0)%nat && negb (size =? 0)%nat
  then raise (ValueError "a cannot be empty unless no samples are taken")
  else np_randint pop_size size.

(** [np.random.choice(np.arange(pop_size), size=size, p=p)]: the checks on
    [p], then inversion of the cumulative distribution on uniform
    samples. *)
Definition choice_p (pop_size : nat) (size : Z) (p : option (list Q)) : M (list nat) :=
  if (pop_size =? 0)%nat && negb (size =? 0)%Z
  then raise (ValueError "a cannot be empty unless no samples are taken")
  else match p with
       | None => raise (ValueError "probabilities contain NaN")
       | Some p =>
           if negb (length p =? pop_size)%nat
           then raise (ValueError "a and p must have same size")
           else if existsb (fun v => Qltb v 0) p
           then raise (ValueError "probabilities are not non-negative")
           else if negb (Qeq_bool (Qsum p) 1)
           then raise (ValueError "probabilities do not sum to 1")
           else if (size <? 0)%Z
           then raise (ValueError "negative dimensions are not allowed")
           else
             let cdf := cumsum p in
             let cdf := map (fun c => c / default 0 (last cdf))%Q cdf in
             let* uniform_samples := np_random_sample (Z.to_nat size) in
             ret (map (searchsorted_right cdf) uniform_samples)
       end.

(** [train_test_split(x, y, test_size=test_size, random_state=42)]: the
    first [n_test] entries of the shuffle index the test part, the next
    [n_train] the train part; returns [(x_train, x_test, y_train, y_test)]. *)
Definition train_test_split (x y : ndarray) (test_size : Q)
  : Exn + (ndarray * ndarray * ndarray * ndarray) :=
  if negb (shape0 x =? shape0 y)%nat
  then inl (ValueError "Found input variables with inconsistent numbers of samples")
  else
    match validate_shuffle_split (shape0 x) test_size with
    | inl e => inl e
    | inr (n_train, n_test) =>
        let permutation := permutation42 (shape0 x) in
        let ind_test := take n_test permutation in
        let ind_train := take n_train (drop n_test permutation) in
        match fancy x ind_train, fancy x ind_test, fancy y ind_train, fancy y ind_test with
        | inr x_train, inr x_test, inr y_train, inr y_test =>
            inr (x_train, x_test, y_train, y_test)
        | _, _, _, _ => inl IndexError
        end
    end.

(** *** [Loader.loading] *)

(** [folder + do]: [None + str] is a [TypeError]. *)
Definition str_add (folder : option string) (do : string) : M string :=
  match folder with
  | None => raise TypeError
  | Some f => ret (f ++ do)
  end.

(** [tools.create_missing_folders]. *)
Definition create_missing_folders (paths : list string) : M unit :=
  emit (MkDirs paths).

(** [load(filename=..., variables=...)] *)
Definition load_file (filename : string) (variables : list string) : M DataFrame :=
  let* df := lift (load filename variables) in
  emit (Loaded filename variables) ;;
  ret df.

(** Attribute access on a table that may be [None]. *)
Definition attr (df : option DataFrame) : M DataFrame :=
  match df with
  | None => raise AttributeError
  | Some d => ret d
  end.

(** [wx.truthWeight] *)
Definition truthWeight (wx : DataFrame) : M (list Q) :=
  match get_column wx "truthWeight" with
  | inl _ => raise AttributeError
  | inr s => ret s
  end.

(** Lines 78-105: the scenario's legend and variables, and the two tables,
    read from the files when the caller passed none. *)
Definition load_samples (do : string) (x0 x1 : option DataFrame)
  : M (option (list string) * list string * option DataFrame * option DataFrame) :=
  let variables := ["Njets"; "j1pT"; "j1eta"; "ptmiss"; "VpT"; "Veta"] in
  if String.eqb do "sherpaVsMG5" then
    let legend := ["Sherpa"; "MG5"] in
    match x0, x1 with
    | None, None =>
        let* x0 := load_file "/eos/user/m/mvesterb/data/sherpa/Nominal.root" variables in
        let* x1 := load_file "/eos/user/m/mvesterb/data/madgraph/Nominal.root" variables in
        ret (Some legend, variables, Some x0, Some x1)
    | _, _ => ret (Some legend, variables, x0, x1)
    end
  else if String.eqb do "mur" then
    let legend := ["MUR1"; "MUR2"] in
    match x0, x1 with
    | None, None =>
        let* x0 := load_file "/eos/user/m/mvesterb/data/MUR1_MUF1_PDF261000.root" variables in
        let* x1 := load_file "/eos/user/m/mvesterb/data/MUR2_MUF1_PDF261000.root" variables in
        let* wx0 := load_file "/eos/user/m/mvesterb/data/MUR1_MUF1_PDF261000.root" ["truthWeight"] in
        let* wx1 := load_file "/eos/user/m/mvesterb/data/MUR2_MUF1_PDF261000.root" ["truthWeight"] in
        let* w0 := truthWeight wx0 in
        let p0 := series_div w0 (Qsum w0) in
        let* w1 := truthWeight wx1 in
        let p1 := series_div w1 (Qsum w1) in
        let* i0 := choice_p (len x0) (int_of_float (Qsum w0)) p0 in
        let* i1 := choice_p (len x1) (int_of_float (Qsum w1)) p1 in
        let* x0 := lift (iloc x0 i0) in
        let* x1 := lift (iloc x1 i1) in
        ret (Some legend, variables, Some x0, Some x1)
    | _, _ => ret (Some legend, variables, x0, x1)
    end
  else if String.eqb do "qsf" then
    let legend := ["qsfUp"; "qsfDown"] in
    let variables := ["Njets"; "j1pT"; "j1eta"; "ptmiss"; "l1pT"; "l1eta"] in
    match x0, x1 with
    | None, None =>
        let* x0 := load_file "/eos/user/m/mvesterb/data/qsfup/Nominal.root" variables in
        let* x1 := load_file "/eos/user/m/mvesterb/data/qsfdown/Nominal.root" variables in
        ret (Some legend, variables, Some x0, Some x1)
    | _, _ => ret (Some legend, variables, x0, x1)
    end
  else ret (None, variables, x0, x1).

(** Lines 108-115: the class-0 train and test slices. *)
Definition balance (randomize : bool) (x0 : DataFrame) (n_target : nat)
  : M (ndarray * ndarray) :=
  if randomize then
    let* idx := choice (shape0 (values x0)) (2 * n_target) in
    let* randomized := lift (fancy (values x0) idx) in
    ret (slice_to n_target randomized, slice_last n_target randomized)
  else
    ret (slice_to n_target (values x0), slice_last n_target (values x0)).

(** Lines 117-124: the correlation heat map.  [cor0[variables[0]]] needs the
    first variable among the columns of [x0]. *)
Definition correlation_plot (do : string) (variables : list string) (x0 : DataFrame)
  : M unit :=
  match variables with
  | [] => raise IndexError
  | v0 :: _ =>
      let* _ := lift (get_column x0 v0) in
      emit (Printed "relevant_features" None) ;;
      emit (SaveFig ("plots/scatterMatrix_" ++ do ++ ".png"))
  end.

(** Lines 132-140: one round of the outlier filter.  Each limit is computed
    from [x0], then assigned again from [x1]; both tables are filtered with
    the limits that are left. *)
Definition filter_column (factor : Q) (column : string) (x0 x1 : DataFrame)
  : M (DataFrame * DataFrame) :=
  let* c0 := lift (get_column x0 column) in
  let upper_lim := upper_limit c0 factor in
  let* c1 := lift (get_column x1 column) in
  let upper_lim := upper_limit c1 factor in
  let lower_lim := lower_limit c0 factor in
  let lower_lim := lower_limit c1 factor in
  let x0 := boolean_index x0 (within c0 upper_lim lower_lim) in
  let x1 := boolean_index x1 (within c1 upper_lim lower_lim) in
  emit (Printed ("column " ++ column) None) ;;
  emit (Printed "x0 after" (Some (len x0))) ;;
  emit (Printed "x1 after" (Some (len x1))) ;;
  ret (x0, x1).

(** [for column in variables: ...] *)
Fixpoint filter_columns (factor : Q) (variables : list string) (x0 x1 : DataFrame)
  : M (DataFrame * DataFrame) :=
  match variables with
  | [] => ret (x0, x1)
  | column :: rest =>
      let* (x0, x1) := filter_column factor column x0 x1 in
      filter_columns factor rest x0 x1
  end.

(** Lines 126-143: the preprocessing step. *)
Definition preprocess (variables : list string) (x0 x1 : DataFrame)
  : M (DataFrame * DataFrame) :=
  let factor := 3%Q in
  emit (Printed "x1.head" None) ;;
  emit (Printed "x0 before preprocessing" (Some (len x0))) ;;
  emit (Printed "x1 before preprocessing" (Some (len x1))) ;;
  let* (x0, x1) := filter_columns factor variables x0 x1 in
  let x0 := round_frame x0 in
  let x1 := round_frame x1 in
  emit (Printed "after x1.head" None) ;;
  ret (x0, x1).

(** Lines 149-153: the combined array and its labels. *)
Definition combine (X0 X1 : ndarray) : M (ndarray * ndarray) :=
  let* x := lift (vstack X0 X1) in
  let y := zeros (shape0 x) in
  let y := assign_from (shape0 X0) 1%Q y in
  let y := reshape_column y in
  ret (x, y).

(** Lines 158-169: the eleven files. *)
Definition save_arrays (dir : string) (X0_test X0 X1 X_train x y X_test X_val y_train y_test y_val : ndarray)
  : M unit :=
  emit (Saved (dir ++ "/x0_test.npy") X0_test) ;;
  emit (Saved (dir ++ "/x0_train.npy") X0) ;;
  emit (Saved (dir ++ "/x1_train.npy") X1) ;;
  emit (Saved (dir ++ "/X_train.npy") X_train) ;;
  emit (Saved (dir ++ "/x_train.npy") x) ;;
  emit (Saved (dir ++ "/y_train.npy") y) ;;
  emit (Saved (dir ++ "/X_test.npy") X_test) ;;
  emit (Saved (dir ++ "/X_val.npy") X_val) ;;
  emit (Saved (dir ++ "/Y_train.npy") y_train) ;;
  emit (Saved (dir ++ "/Y_test.npy") y_test) ;;
  emit (Saved (dir ++ "/Y_val.npy") y_val).

(** Lines 171-173: [X0[:,0]] needs a first column, and [legend] is bound
    only under a known scenario tag. *)
Definition draw (X0 : ndarray) (legend : option (list string)) : M unit :=
  if (shape1 X0 =? 0)%nat then raise IndexError
  else match legend with
       | None => raise UnboundLocalError
       | Some l => emit (Drawn l)
       end.

Definition loading (folder : option string) (plot : bool) (do : string)
  (x0 x1 : option DataFrame) (randomize save correlation preprocessing : bool)
  : M L.t :=
  let* path := str_add folder do in
  create_missing_folders [path] ;;
  let* (legend, variables, x0, x1) := load_samples do x0 x1 in
  let* x1 := attr x1 in
  let n_target := shape0 (values x1) in
  let* x0 := attr x0 in
  let* (X0, X0_test) := balance randomize x0 n_target in
  (if correlation then correlation_plot do variables x0 else ret tt) ;;
  let* (x0, x1) :=
    (if preprocessing then preprocess variables x0 x1 else ret (x0, x1)) in
  let X1 := to_numpy x1 in
  let* (x, y) := combine X0 X1 in
  let* (X_train, X_test, y_train, y_test) := lift (train_test_split x y (40 # 100)) in
  let* (X_train, X_val, y_train, y_val) := lift (train_test_split X_train y_train (50 # 100)) in
  (match folder with
   | Some f => save_arrays (f ++ do) X0_test X0 X1 X_train x y X_test X_val y_train y_test y_val
   | None => ret tt
   end) ;;
  (if plot then draw X0 legend ;; emit (Printed "saving plots" None) else ret tt) ;;
  ret {| L.variables := variables; L.legend := legend;
         L.x0 := x0; L.x1 := x1; L.n_target := n_target;
         L.X0 := X0; L.X0_test := X0_test; L.X1 := X1;
         L.x := x; L.y := y;
         L.X_train := X_train; L.X_val := X_val; L.X_test := X_test;
         L.y_train := y_train; L.y_val := y_val; L.y_test := y_test |}.

(** What the call returns: [return x, y]. *)
Definition returned (l : L.t) : ndarray * ndarray := (L.x l, L.y l).

End Loader.

(** The files that a successful call with a folder writes, in order. *)
Definition saved_files (dir : string) (fr : L.t) : list Event :=
  [Saved (dir ++ "/x0_test.npy") (L.X0_test fr);
   Saved (dir ++ "/x0_train.npy") (L.X0 fr);
   Saved (dir ++ "/x1_train.npy") (L.X1 fr);
   Saved (dir ++ "/X_train.npy") (L.X_train fr);
   Saved (dir ++ "/x_train.npy") (L.x fr);
   Saved (dir ++ "/y_train.npy") (L.y fr);
   Saved (dir ++ "/X_test.npy") (L.X_test fr);
   Saved (dir ++ "/X_val.npy") (L.X_val fr);
   Saved (dir ++ "/Y_train.npy") (L.y_train fr);
   Saved (dir ++ "/Y_test.npy") (L.y_test fr);
   Saved (dir ++ "/Y_val.npy") (L.y_val fr)].

(** *** The contracts of the external collaborators *)

(** [random_sample] returns as many values as asked for, each in [[0, 1)]. *)
Definition random_sample_ok (E : Env) : Prop :=
  forall (g : Rng) (n : nat),
    length (random_sample g n).1 = n /\
    Forall (fun u => (0 <= u)%Q /\ (u < 1)%Q) (random_sample g n).1.

(** [randint] returns as many values as asked for. *)
Definition randint_ok (E : Env) : Prop :=
  forall (g : Rng) (hi n : nat), length (randint g hi n).1 = n.

(** The shuffle of [n] positions is a permutation of them. *)
Definition permutation42_ok (E : Env) : Prop :=
  forall n : nat, Permutation (permutation42 n) (seq 0 n).

(** What lines 89-97 make of a table [t] and its weight table [wt]: the
    weights [ws], their normalization [p] (a probability distribution over
    the rows of [t]), the drawn positions [i] (as many as the integer part
    of the sum of the weights, each a row position of [t]) and the
    resampled table [r]. *)
Definition resampled (t wt r : DataFrame) : Prop :=
  exists (ws p : list Q) (i : list nat),
    get_column wt "truthWeight" = inr ws /\
    p = map (fun v => v / Qsum ws)%Q ws /\
    length p = len t /\
    Forall (fun v => (0 <= v)%Q) p /\
    (Qsum p == 1)%Q /\
    Z.of_nat (length i) = int_of_float (Qsum ws) /\
    Forall (fun k => k < len t) i /\
    iloc t i = inr r.

(** *** The preprocessing step as the specification words it

    Section 4.3 of the specification: each table is cut with the limits
    computed from its own column.  Compared with [preprocess] below. *)

Definition spec_filter_column (factor : Q) (column : string) (df : DataFrame)
  : Exn + DataFrame :=
  match get_column df column with
  | inl e => inl e
  | inr c =>
      inr (boolean_index df (within c (upper_limit c factor) (lower_limit c factor)))
  end.

Fixpoint spec_filter_columns (factor : Q) (variables : list string) (df : DataFrame)
  : Exn + DataFrame :=
  match variables with
  | [] => inr df
  | column :: rest =>
      match spec_filter_column factor column df with
      | inl e => inl e
      | inr df' => spec_filter_columns factor rest df'
      end
  end.

Definition spec_preprocess (variables : list string) (df : DataFrame)
  : Exn + DataFrame :=
  match spec_filter_columns 3 variables df with
  | inl e => inl e
  | inr df' => inr (round_frame df')
  end.

(** *** Sample inputs *)

Definition sherpa_variables : list string :=
  ["Njets"; "j1pT"; "j1eta"; "ptmiss"; "VpT"; "Veta"].

(** A table over the six variables of the generator comparison whose rows
    repeat one value in every column. *)
Definition table_of (vs : list Q) : DataFrame :=
  {| columns := sherpa_variables; rows := map (replicate 6) vs |}.

(** The same rows under the column names in reverse order. *)
Definition table_reversed (vs : list Q) : DataFrame :=
  {| columns := reverse sherpa_variables; rows := map (replicate 6) vs |}.

(** The same rows under six other column names. *)
Definition table_renamed (vs : list Q) : DataFrame :=
  {| columns := ["a"; "b"; "c"; "d"; "e"; "f"]; rows := map (replicate 6) vs |}.

Definition weights_of (ws : list Q) : DataFrame :=
  {| columns := ["truthWeight"]; rows := map (fun v => [v]) ws |}.

Definition is_weight_request (variables : list string) : bool :=
  match variables with
  | [c] => String.eqb c "truthWeight"
  | _ => false
  end.

(** A small world for the examples: a counter as generator, uniform
    samples cycling through 0, 1/4, 1/2, 3/4, integers cycling through the
    range, the reversal as shuffle, and two files of the scale-variation
    scenario. *)
Definition sample_env : Env := {|
  Rng := nat;
  random_sample g n :=
    (map (fun i => (Z.of_nat ((g + i) mod 4) # 4)%Q) (seq 0 n), (g + n)%nat);
  randint g hi n := (map (fun i => ((g + i) mod hi)%nat) (seq 0 n), (g + n)%nat);
  permutation42 n := reverse (seq 0 n);
  load filename variables :=
    if String.eqb filename "/eos/user/m/mvesterb/data/MUR1_MUF1_PDF261000.root"
    then inr (if is_weight_request variables
              then weights_of [9 # 10; 9 # 10]%Q
              else table_of [5; 6]%Q)
    else if String.eqb filename "/eos/user/m/mvesterb/data/MUR2_MUF1_PDF261000.root"
    then inr (if is_weight_request variables
              then weights_of [1; 1; 1]%Q
              else table_of [0; 1; 2]%Q)
    else inl (LoadFailure filename)
|}.

Definition sample_world : @World sample_env := @Build_World sample_env 0%nat [].

(** One row in the first table, three in the second. *)
Definition x0_short : DataFrame := table_of [7]%Q.
Definition x1_three : DataFrame := table_of [0; 1; 2]%Q.

(** Four rows each; the rows of the second table are all equal, so its
    standard deviation is zero. *)
Definition x0_four : DataFrame := table_of [10; 11; 12; 13]%Q.
Definition x1_constant : DataFrame := table_of [5; 5; 5; 5]%Q.

(** A first table with an outlier and a value with three decimals. *)
Definition x0_raw : DataFrame := table_of [1 # 8; 1000; 3]%Q.

(** 1000 rows 0, 1, ..., 999; and 400 rows: 399 rows cycling through
    0, ..., 6 and one row of 1000. *)
Definition x0_thousand : DataFrame :=
  table_of (map (fun i => inject_Z (Z.of_nat i)) (seq 0 1000)).
Definition x1_outlier : DataFrame :=
  table_of (map (fun i => inject_Z (Z.of_nat (i mod 7))) (seq 0 399) ++ [1000%Q]).
Definition x1_plain : DataFrame :=
  table_of (map (fun i => inject_Z (Z.of_nat (i mod 7))) (seq 0 400)).

(** ** Frames of a run *)

Definition is_saved (ev : Event) : bool :=
  match ev with
  | Saved _ _ => true
  | _ => false
  end.

(** The [np.save] calls of a trace, in order. *)
Definition saved_events (tr : list Event) : list Event := List.filter is_saved tr.

(** The scenario tags that [loading] and [load_result] know. *)
Definition known_tag (do : string) : Prop :=
  do = "sherpaVsMG5" \/ do = "mur" \/ do = "qsf".

Section Frames.

Context {E : Env}.

(** [w'] comes from [w] by appending events that [allowed] admits and,
    when [keep_rng] is set, with the generator of [w]. *)
Definition extends (keep_rng : bool) (allowed : Event -> bool) (w w' : World) : Prop :=
  (keep_rng = true -> rng w' = rng w) /\
  exists evs, trace w' = (trace w ++ evs)%list /\ forallb allowed evs = true.

(** Every run of [m], failing or not, relates the worlds by [R]. *)
Definition frames {A} (R : World -> World -> Prop) (m : M A) : Prop :=
  forall (w w' : World) (r : Exn + A), m w = (w', r) -> R w w'.

End Frames.

(** ** [Loader.load_result] and [Loader.load_calibration] *)

(** [range(start, stop, step)] for a positive step. *)
Definition py_range (start stop step : nat) : list Q :=
  map (fun i => Qof_nat (start + i * step))
      (seq 0 ((stop - start + (step - 1)) / step)).

(** A call of the plotting module [.plotting]. *)
Inductive PlotCall :=
| draw_ROC (X0 X1 : ndarray) (weights : option (list Q)) (label : option string)
    (legend : list string) (save : bool)
| draw_weighted_distributions (X0 X1 : ndarray) (weights : option (list Q))
    (variables vlabels : list string) (binning : list (list Q))
    (label : option string) (legend : list string) (save : bool)
| plot_calibration_curve (y_true : ndarray) (p1_raw p1_cal : option (list Q))
    (do : string) (save : bool).

(** [tools.load_and_check]: the array behind a file name or an array-like
    object. *)
Class Tools := {
  Source : Type;
  load_and_check : Source -> Exn + ndarray
}.

(** Lines 195-207 of [load_result]: the variables, the axis labels, the
    lepton or boson pseudorapidity edges and the legend of a scenario; the
    legend stays unbound under an unknown tag. *)
Definition result_config (do : string)
  : list string * list string * list Q * option (list string) :=
  let variables := ["Njets"; "j1pT"; "j1eta"; "ptmiss"; "VpT"; "Veta"] in
  let vlabels :=
    ["Number of jets"; "Leading jet $\mathrm{p_{T}}$ [GeV]"; "Leading jet $\eta$";
     "$\mathrm{p_{T}^{miss}}$ [GeV]"; "V $\mathrm{p_{T}}$ [GeV]"; "V $\eta$"] in
  let etaX := map inject_Z
    [-10; -9; -8; -7; -6; -5; -4; -3; -2; -1; 0; 1; 2; 3; 4; 5; 6; 7; 8; 9; 10; 11]%Z in
  if String.eqb do "sherpaVsMG5" then
    (variables, vlabels, etaX, Some ["Sherpa"; "MG5"])
  else if String.eqb do "mur" then
    (variables, vlabels, etaX, Some ["MUR1"; "MUR2"])
  else if String.eqb do "qsf" then
    let etaX := [-28 # 10; -24 # 10; -2; -16 # 10; -12 # 10; -8 # 10; -4 # 10; 0;
                 4 # 10; 8 # 10; 12 # 10; 16 # 10; 2; 24 # 10; 28 # 10]%Q in
    let vlabels :=
      ["Number of jets"; "Leading jet $\mathrm{p_{T}}$ [GeV]"; "Leading jet $\eta$";
       "Subleading jet $\mathrm{p_{T}}$ [GeV]"; "Subleading jet $\eta$";
       "$\mathrm{p_{T}^{miss}}$ [GeV]"; "Lepton $\mathrm{p_{T}}$ [GeV]";
       "Lepton $\eta$"] in
    let variables := ["Njets"; "j1pT"; "j1eta"; "ptmiss"; "l1pT"; "l1eta"] in
    (variables, vlabels, etaX, Some ["qsfUp"; "qsfDown"])
  else (variables, vlabels, etaX, None).

(** Line 208: the histogram edges, one sequence per variable. *)
Definition result_binning (etaX : list Q) : list (list Q) :=
  let etaJ := [-28 # 10; -24 # 10; -2; -16 # 10; -12 # 10; -8 # 10; -4 # 10; 0;
               4 # 10; 8 # 10; 12 # 10; 16 # 10; 2; 24 # 10; 28 # 10]%Q in
  [py_range 0 15 1; py_range 0 2750 250; etaJ; py_range 0 2000 200;
   py_range 0 2000 200; etaX].

(** Line 213, [weights / weights.sum() * len(X1)].  On a non-empty array
    with sum zero the division leaves NaN or infinite entries, for which
    [None] stands. *)
Definition scale_weights (weights : list Q) (n : nat) : option (list Q) :=
  match weights with
  | [] => Some []
  | _ =>
      if Qeq_bool (Qsum weights) 0 then None
      else Some (map (fun v => v / Qsum weights * Qof_nat n)%Q weights)
  end.

Section Reporting.

Context {T : Tools}.

(** [load_result]: the calls made to the plotting module, and the
    exception that ended the call, if any.  [weights=None] has no [sum];
    the unbound [legend] is met when the first plot call is built. *)
Definition load_result (x0 x1 : Source) (weights : option (list Q))
    (label : option string) (do : string) (save : bool)
  : list PlotCall * option Exn :=
  let '(variables, vlabels, etaX, legend) := result_config do in
  let binning := result_binning etaX in
  match load_and_check x0 with
  | inl e => ([], Some e)
  | inr X0 =>
      match load_and_check x1 with
      | inl e => ([], Some e)
      | inr X1 =>
          match weights with
          | None => ([], Some AttributeError)
          | Some weights =>
              let weights := scale_weights weights (shape0 X1) in
              match legend with
              | None => ([], Some UnboundLocalError)
              | Some legend =>
                  ([draw_ROC X0 X1 weights label legend save;
                    draw_weighted_distributions X0 X1 weights variables vlabels
                      binning label legend save], None)
              end
          end
      end
  end.

(** [load_calibration] *)
Definition load_calibration (y_true : Source) (p1_raw p1_cal : option (list Q))
    (label : option string) (do : string) (save : bool)
  : list PlotCall * option Exn :=
  match load_and_check y_true with
  | inl e => ([], Some e)
  | inr y_true => ([plot_calibration_curve y_true p1_raw p1_cal do save], None)
  end.

End Reporting.

(** Weights that the resampling of the scale-variation scenario cannot
    use: they add up to zero, or they add up to a positive number and one
    of them is negative. *)
Definition bad_weights (ws : list Q) : Prop :=
  (Qsum ws == 0)%Q \/ ((0 < Qsum ws)%Q /\ Exists (fun v => (v < 0)%Q) ws).

(** The rows of an array, each with its label. *)
Definition labelled (x y : ndarray) : list (list Q * list Q) :=
  zip (data x) (data y).

(** *** More sample inputs *)

(** The sample world with other weights in the two files. *)
Definition weights_env (ws0 ws1 : list Q) : Env := {|
  Rng := nat;
  random_sample g n :=
    (map (fun i => (Z.of_nat ((g + i) mod 4) # 4)%Q) (seq 0 n), (g + n)%nat);
  randint g hi n := (map (fun i => ((g + i) mod hi)%nat) (seq 0 n), (g + n)%nat);
  permutation42 n := reverse (seq 0 n);
  load filename variables :=
    if String.eqb filename "/eos/user/m/mvesterb/data/MUR1_MUF1_PDF261000.root"
    then inr (if is_weight_request variables
              then weights_of ws0
              else table_of [5; 6]%Q)
    else if String.eqb filename "/eos/user/m/mvesterb/data/MUR2_MUF1_PDF261000.root"
    then inr (if is_weight_request variables
              then weights_of ws1
              else table_of [0; 1; 2]%Q)
    else inl (LoadFailure filename)
|}.

(** Two array files. *)
Definition sample_tools : Tools := {|
  Source := string;
  load_and_check s :=
    if String.eqb s "x0_test.npy" then inr (values x0_four)
    else if String.eqb s "x1_train.npy" then inr (values x1_three)
    else inl (LoadFailure s)
|}.

(** ** Properties *)

Open Scope list_scope.

Section MonadLemmas.

Context {E : Env}.

Lemma bind_inr {A B} (m : M A) (k : A -> M B) (w w' : World) (b : B) :
  bind m k w = (w', inr b) ->
  exists a w1, m w = (w1, inr a) /\ k a w1 = (w', inr b).
Proof.
  unfold bind. destruct (m w) as [w1 [e | a]]; intros H.
  - discriminate.
  - eauto.
Qed.

Lemma ret_inr {A} (a b : A) (w w' : World) :
  ret a w = (w', inr b) -> w' = w /\ b = a.
Proof. unfold ret. intros H. by inversion H. Qed.

Lemma raise_inr {A} (e : Exn) (w w' : World) (b : A) :
  raise e w = (w', inr b) -> False.
Proof. unfold raise. intros H. discriminate. Qed.

Lemma lift_inr {A} (r : Exn + A) (w w' : World) (b : A) :
  lift r w = (w', inr b) -> w' = w /\ r = inr b.
Proof. unfold lift. intros H. by inversion H. Qed.

Lemma emit_inr (ev : Event) (w w' : World) (u : unit) :
  emit ev w = (w', inr u) ->
  w' = {| rng := rng w; trace := trace w ++ [ev] |}.
Proof. unfold emit. intros H. by inversion H. Qed.

End MonadLemmas.

(** Inversion of a successful run, one monadic step at a time. *)
Ltac minv_step :=
  match goal with
  | H : bind _ _ _ = (_, inr _) |- _ =>
      let a := fresh "a" in
      let w := fresh "w" in
      let H1 := fresh "Hm" in
      apply bind_inr in H as (a & w & H1 & H); cbv beta in H
  | H : ret _ _ = (_, inr _) |- _ =>
      let Hw := fresh "Hw" in
      let Hv := fresh "Hv" in
      apply ret_inr in H as [Hw Hv]
  | H : raise _ _ = (_, inr _) |- _ => apply raise_inr in H; destruct H
  | H : lift _ _ = (_, inr _) |- _ =>
      let Hw := fresh "Hw" in
      let Hv := fresh "Hv" in
      apply lift_inr in H as [Hw Hv]
  | H : emit _ _ = (_, inr _) |- _ => apply emit_inr in H
  end.
Ltac minv := repeat minv_step.

(** *** Arrays *)

Lemma compress_sublist {A} (mask : list bool) (l : list A) :
  compress mask l `sublist_of` l.
Proof.
  revert mask. induction l as [|a l IH]; intros [|[] mask]; simpl;
    try apply sublist_nil_l.
  - by apply sublist_skip.
  - by apply sublist_cons.
Qed.

Lemma compress_map {A} (p : A -> bool) (l : list A) :
  compress (map p l) l = List.filter p l.
Proof.
  induction l as [|a l IH]; simpl; [done|].
  rewrite IH. by destruct (p a).
Qed.

Lemma take_rows_lookup {A} (idx : list nat) (l r : list A) :
  take_rows idx l = inr r -> Forall2 (fun i a => l !! i = Some a) idx r.
Proof.
  revert r. induction idx as [|i idx IH]; simpl; intros r H.
  - inversion H. constructor.
  - destruct (l !! i) as [a|] eqn:Hi; [|discriminate].
    destruct (take_rows idx l) as [e|r']; [discriminate|].
    inversion H; subst. constructor; auto.
Qed.

Lemma take_rows_length {A} (idx : list nat) (l r : list A) :
  take_rows idx l = inr r -> length r = length idx.
Proof.
  intros H. apply take_rows_lookup in H. symmetry. by eapply Forall2_length.
Qed.

Lemma take_rows_bounds {A} (idx : list nat) (l r : list A) :
  take_rows idx l = inr r -> Forall (fun i => i < length l) idx.
Proof.
  intros H. apply take_rows_lookup in H.
  induction H as [|i a idx r Hi _ IH]; constructor; auto.
  by eapply lookup_lt_Some.
Qed.

Lemma take_rows_elem {A} (idx : list nat) (l r : list A) :
  take_rows idx l = inr r -> Forall (fun a => a ∈ l) r.
Proof.
  intros H. apply take_rows_lookup in H.
  induction H as [|i a idx r Hi _ IH]; constructor; auto.
  by eapply list_elem_of_lookup_2.
Qed.

Lemma take_rows_total {A} (idx : list nat) (l : list A) :
  Forall (fun i => i < length l) idx -> exists r, take_rows idx l = inr r.
Proof.
  induction 1 as [|i idx Hi _ [r IH]]; simpl.
  - by exists [].
  - destruct (lookup_lt_is_Some_2 l i Hi) as [a Ha].
    rewrite Ha, IH. by exists (a :: r).
Qed.

Lemma take_rows_app {A} (i1 i2 : list nat) (l r : list A) :
  take_rows (i1 ++ i2) l = inr r ->
  exists r1 r2, take_rows i1 l = inr r1 /\ take_rows i2 l = inr r2 /\ r = r1 ++ r2.
Proof.
  revert r. induction i1 as [|i i1 IH]; simpl; intros r H.
  - by exists [], r.
  - destruct (l !! i) as [a|]; [|discriminate].
    destruct (take_rows (i1 ++ i2) l) as [e|r'] eqn:Hr; [discriminate|].
    inversion H; subst.
    destruct (IH r' eq_refl) as (r1 & r2 & -> & H2 & ->).
    by exists (a :: r1), r2.
Qed.

(** Selecting the rows at a permutation of all positions permutes the
    rows. *)
Lemma take_rows_permutation {A} (idx : list nat) (l r : list A) :
  take_rows idx l = inr r ->
  Permutation idx (seq 0 (length l)) ->
  Permutation r l.
Proof.
  intros H Hp. apply take_rows_lookup in H.
  assert (Hr : Some <$> r = (fun i => l !! i) <$> idx).
  { clear Hp. induction H as [|i a idx' r' Hi _ IH]; simpl; [done|].
    rewrite Hi. f_equal. apply IH. }
  assert (Hl : Some <$> l = (fun i => l !! i) <$> seq 0 (length l)).
  { clear. apply list_eq. intros i. rewrite !list_lookup_fmap.
    destruct (decide (i < length l)) as [Hi|Hi].
    - rewrite lookup_seq_lt by done. simpl.
      destruct (lookup_lt_is_Some_2 l i Hi) as [a Ha]. by rewrite Ha.
    - rewrite lookup_seq_ge by lia. simpl.
      rewrite (proj2 (lookup_ge_None l i)) by lia. done. }
  assert (Hs : Permutation (Some <$> r) (Some <$> l)).
  { rewrite Hr, Hl. by apply fmap_Permutation. }
  symmetry in Hs. apply Permutation_map_inv in Hs as (l3 & Heq & Hp3).
  apply (inj (fmap Some)) in Heq. subst l3. by symmetry.
Qed.

(** *** Labels and stacking *)

Lemma assign_from_zeros (k n : nat) :
  assign_from k 1 (zeros n) = replicate (min k n) 0%Q ++ replicate (n - k) 1%Q.
Proof.
  unfold assign_from, zeros.
  rewrite take_replicate, drop_replicate. f_equal.
  induction (n - k) as [|m IH]; simpl; [done|]. by rewrite IH.
Qed.

Lemma vstack_inr (a b c : ndarray) :
  vstack a b = inr c ->
  shape1 a = shape1 b /\ c = {| shape1 := shape1 a; data := data a ++ data b |}.
Proof.
  unfold vstack. destruct (shape1 a =? shape1 b)%nat eqn:Hs; intros H.
  - apply Nat.eqb_eq in Hs. by inversion H.
  - discriminate.
Qed.

Lemma vstack_inl (a b : ndarray) (e : Exn) :
  vstack a b = inl e -> shape1 a <> shape1 b.
Proof.
  unfold vstack. destruct (shape1 a =? shape1 b)%nat eqn:Hs; intros H.
  - discriminate.
  - by apply Nat.eqb_neq in Hs.
Qed.

(** *** The split sizes *)

Lemma Qceiling_ratio (a b : positive) (n : nat) :
  Z.to_nat (Qceiling ((Z.pos a # b) * Qof_nat n)) =
  (Pos.to_nat a * n + (Pos.to_nat b - 1)) / Pos.to_nat b.
Proof.
  unfold Qceiling, Qfloor, Qof_nat, inject_Z, Qmult, Qopp. simpl Qnum. simpl Qden.
  rewrite Pos.mul_1_r.
  apply Nat2Z.inj. rewrite Nat2Z.inj_div.
  rewrite Z2Nat.id by (Z.to_euclidean_division_equations; nia).
  Z.to_euclidean_division_equations; nia.
Qed.

Lemma n_test_40 (n : nat) :
  Z.to_nat (Qceiling ((40 # 100) * Qof_nat n)) = (2 * n + 4) / 5.
Proof.
  rewrite Qceiling_ratio. apply Nat2Z.inj. rewrite !Nat2Z.inj_div.
  Z.to_euclidean_division_equations; lia.
Qed.

Lemma n_test_50 (n : nat) :
  Z.to_nat (Qceiling ((50 # 100) * Qof_nat n)) = (n + 1) / 2.
Proof.
  rewrite Qceiling_ratio. apply Nat2Z.inj. rewrite !Nat2Z.inj_div.
  Z.to_euclidean_division_equations; lia.
Qed.

Lemma validate_shuffle_split_inr (n : nat) (test_size : Q) (n_train n_test : nat) :
  validate_shuffle_split n test_size = inr (n_train, n_test) ->
  n_test = Z.to_nat (Qceiling (test_size * Qof_nat n)) /\
  n_train = n - n_test /\ 0 < n_train.
Proof.
  unfold validate_shuffle_split.
  destruct (n - _ =? 0)%nat eqn:Hz; intros H; [discriminate|].
  apply Nat.eqb_neq in Hz. inversion H; subst. lia.
Qed.

Section Split.

Context {E : Env}.

Lemma fancy_inr (a b : ndarray) (idx : list nat) :
  fancy a idx = inr b ->
  shape1 b = shape1 a /\ take_rows idx (data a) = inr (data b).
Proof.
  unfold fancy. destruct (take_rows idx (data a)) as [e|r]; intros H.
  - discriminate.
  - by inversion H.
Qed.

Lemma fancy_total (a : ndarray) (idx : list nat) :
  Forall (fun i => i < shape0 a) idx -> exists b, fancy a idx = inr b.
Proof.
  intros H. destruct (take_rows_total idx (data a) H) as [r Hr].
  unfold fancy. rewrite Hr. eauto.
Qed.

(** What a successful [train_test_split] returns. *)
Lemma train_test_split_inr (x y : ndarray) (test_size : Q)
    (x_train x_test y_train y_test : ndarray) :
  train_test_split x y test_size = inr (x_train, x_test, y_train, y_test) ->
  let n := shape0 x in
  let n_test := Z.to_nat (Qceiling (test_size * Qof_nat n)) in
  let n_train := n - n_test in
  shape0 y = n /\ 0 < n_train /\
  fancy x (take n_train (drop n_test (permutation42 n))) = inr x_train /\
  fancy x (take n_test (permutation42 n)) = inr x_test /\
  fancy y (take n_train (drop n_test (permutation42 n))) = inr y_train /\
  fancy y (take n_test (permutation42 n)) = inr y_test.
Proof.
  unfold train_test_split.
  destruct (shape0 x =? shape0 y)%nat eqn:Hn; simpl; [|discriminate].
  apply Nat.eqb_eq in Hn.
  destruct (validate_shuffle_split (shape0 x) test_size) as [e|[n_train n_test]] eqn:Hv;
    [discriminate|].
  apply validate_shuffle_split_inr in Hv as (-> & -> & Hpos).
  destruct (fancy x (take _ (drop _ _))) as [?|a1]; [discriminate|].
  destruct (fancy x (take _ (permutation42 _))) as [?|a2]; [discriminate|].
  destruct (fancy y (take _ (drop _ _))) as [?|a3]; [discriminate|].
  destruct (fancy y (take _ (permutation42 _))) as [?|a4]; [discriminate|].
  intros H. inversion H; subst. repeat split; auto.
Qed.

End Split.

(** *** The stages of [loading] *)

Section Stages.

Context {E : Env}.

Lemma str_add_inr (folder : option string) (do path : string) (w w' : World) :
  str_add folder do w = (w', inr path) ->
  exists f, folder = Some f /\ path = (f ++ do)%string /\ w' = w.
Proof.
  destruct folder as [f|]; simpl; intros H; minv.
  subst. eauto.
Qed.

Lemma attr_inr (o : option DataFrame) (d : DataFrame) (w w' : World) :
  attr o w = (w', inr d) -> o = Some d /\ w' = w.
Proof.
  destruct o as [d'|]; simpl; intros H; minv. by subst.
Qed.

(** One round of the filter: both tables are cut with the limits of the
    column of [x1]. *)
Lemma filter_column_inr (factor : Q) (column : string) (x0 x1 a b : DataFrame)
    (w w' : World) :
  filter_column factor column x0 x1 w = (w', inr (a, b)) ->
  exists c0 c1,
    get_column x0 column = inr c0 /\
    get_column x1 column = inr c1 /\
    a = boolean_index x0 (within c0 (upper_limit c1 factor) (lower_limit c1 factor)) /\
    b = boolean_index x1 (within c1 (upper_limit c1 factor) (lower_limit c1 factor)) /\
    rng w' = rng w /\
    trace w' = trace w ++ [Printed ("column " ++ column) None;
                           Printed "x0 after" (Some (len a));
                           Printed "x1 after" (Some (len b))].
Proof.
  unfold filter_column. intros H.
  minv. inversion Hv; subst.
  exists a0, a1. simpl. rewrite <- !app_assoc. simpl. auto 10.
Qed.

(** The rounds of the filter keep the columns, select a subsequence of the
    rows of each table, and leave the generator alone. *)
Lemma filter_columns_inr (factor : Q) (variables : list string)
    (x0 x1 a b : DataFrame) (w w' : World) :
  filter_columns factor variables x0 x1 w = (w', inr (a, b)) ->
  columns a = columns x0 /\ columns b = columns x1 /\
  (rows a `sublist_of` rows x0) /\ (rows b `sublist_of` rows x1) /\
  rng w' = rng w.
Proof.
  revert x0 x1 w. induction variables as [|column rest IH]; simpl; intros x0 x1 w H.
  - minv. inversion Hv; subst. auto.
  - minv. destruct a0 as [x0' x1'].
    apply filter_column_inr in Hm as (c0 & c1 & _ & _ & -> & -> & Hr & _).
    apply IH in H as (Ha & Hb & Hsa & Hsb & Hr').
    simpl in *. repeat split; try congruence.
    + etrans; [exact Hsa|apply compress_sublist].
    + etrans; [exact Hsb|apply compress_sublist].
Qed.

(** Every variable names a column of both tables when the filter runs
    through. *)
Lemma filter_columns_keys (factor : Q) (variables : list string)
    (x0 x1 a b : DataFrame) (w w' : World) :
  filter_columns factor variables x0 x1 w = (w', inr (a, b)) ->
  Forall (fun v => is_Some (index_of v (columns x0)) /\
                   is_Some (index_of v (columns x1))) variables.
Proof.
  revert x0 x1 w. induction variables as [|column rest IH]; simpl; intros x0 x1 w H.
  - constructor.
  - minv. destruct a0 as [x0' x1'].
    apply filter_column_inr in Hm as (c0 & c1 & H0 & H1 & -> & -> & _ & _).
    apply IH in H. simpl in H. constructor; [|exact H].
    unfold get_column in H0, H1.
    destruct (index_of column (columns x0)); [|discriminate].
    destruct (index_of column (columns x1)); [|discriminate].
    split; eauto.
Qed.

Lemma filter_columns_total (factor : Q) (variables : list string)
    (x0 x1 : DataFrame) (w : World) :
  Forall (fun v => is_Some (index_of v (columns x0)) /\
                   is_Some (index_of v (columns x1))) variables ->
  exists a b w', filter_columns factor variables x0 x1 w = (w', inr (a, b)).
Proof.
  revert x0 x1 w. induction variables as [|column rest IH]; simpl; intros x0 x1 w H.
  - by exists x0, x1, w.
  - inversion H as [|? ? [[i0 Hi0] [i1 Hi1]] Hrest]; subst.
    unfold filter_column, get_column, bind, lift, emit, ret.
    rewrite Hi0, Hi1. simpl. apply IH. exact Hrest.
Qed.

Lemma preprocess_inr (variables : list string) (x0 x1 a b : DataFrame)
    (w w' : World) :
  preprocess variables x0 x1 w = (w', inr (a, b)) ->
  exists f0 f1 w1 w2,
    filter_columns 3 variables x0 x1 w1 = (w2, inr (f0, f1)) /\
    a = round_frame f0 /\ b = round_frame f1 /\
    rng w1 = rng w /\ rng w' = rng w2.
Proof.
  unfold preprocess. intros H. minv. destruct a3 as [f0 f1].
  minv. inversion Hv; subst.
  exists f0, f1. eexists. eexists. split; [exact Hm2|]. simpl. auto.
Qed.

Lemma combine_inr (X0 X1 x y : ndarray) (w w' : World) :
  combine X0 X1 w = (w', inr (x, y)) ->
  w' = w /\ shape1 X0 = shape1 X1 /\
  x = {| shape1 := shape1 X0; data := data X0 ++ data X1 |} /\
  y = reshape_column (replicate (shape0 X0) 0%Q ++ replicate (shape0 X1) 1%Q).
Proof.
  unfold combine. intros H. minv. inversion Hv; subst.
  apply vstack_inr in Hv0 as [Hs ->].
  repeat split; auto.
  rewrite assign_from_zeros. unfold shape0. simpl.
  rewrite length_app. do 3 f_equal; lia.
Qed.

Lemma balance_inr (randomize : bool) (x0 : DataFrame) (n_target : nat)
    (X0 X0_test : ndarray) (w w' : World) :
  balance randomize x0 n_target w = (w', inr (X0, X0_test)) ->
  trace w' = trace w /\
  if randomize then
    exists idx randomized,
      (idx, rng w') = randint (rng w) (len x0) (2 * n_target) /\
      fancy (values x0) idx = inr randomized /\
      X0 = slice_to n_target randomized /\
      X0_test = slice_last n_target randomized
  else
    w' = w /\
    X0 = slice_to n_target (values x0) /\
    X0_test = slice_last n_target (values x0).
Proof.
  unfold balance. destruct randomize; intros H; minv.
  - inversion Hv; subst.
    unfold choice in Hm.
    destruct (_ && _) in Hm; [minv|].
    unfold np_randint in Hm.
    change (shape0 (values x0)) with (len x0) in Hm.
    destruct (randint (rng w) (len x0) (2 * n_target)) as [i g].
    inversion Hm; subst. simpl. split; [done|].
    exists a, a0. auto.
  - inversion Hv; subst. auto.
Qed.

End Stages.

Section Whole.

Context {E : Env}.

(** With a table passed by the caller nothing is read: the tables go
    through as they are. *)
Lemma load_samples_supplied (do : string) (x0 x1 : option DataFrame) (w : World) :
  x0 <> None \/ x1 <> None ->
  exists legend variables,
    load_samples do x0 x1 w = (w, inr (legend, variables, x0, x1)).
Proof.
  intros H. unfold load_samples.
  destruct (String.eqb do "sherpaVsMG5"); [|destruct (String.eqb do "mur");
    [|destruct (String.eqb do "qsf")]];
    destruct x0, x1; try (destruct H; congruence); unfold ret; eauto.
Qed.

Lemma save_arrays_inr (dir : string)
    (X0_test X0 X1 X_train x y X_test X_val y_train y_test y_val : ndarray)
    (w w' : World) (u : unit) :
  save_arrays dir X0_test X0 X1 X_train x y X_test X_val y_train y_test y_val w
    = (w', inr u) ->
  rng w' = rng w /\
  trace w' = trace w ++
    [Saved (dir ++ "/x0_test.npy") X0_test;
     Saved (dir ++ "/x0_train.npy") X0;
     Saved (dir ++ "/x1_train.npy") X1;
     Saved (dir ++ "/X_train.npy") X_train;
     Saved (dir ++ "/x_train.npy") x;
     Saved (dir ++ "/y_train.npy") y;
     Saved (dir ++ "/X_test.npy") X_test;
     Saved (dir ++ "/X_val.npy") X_val;
     Saved (dir ++ "/Y_train.npy") y_train;
     Saved (dir ++ "/Y_test.npy") y_test;
     Saved (dir ++ "/Y_val.npy") y_val].
Proof.
  unfold save_arrays. intros H. minv. subst. simpl.
  rewrite <- !app_assoc. simpl. auto.
Qed.

(** The stages of a call that returns. *)
Lemma loading_inr (folder : option string) (plot : bool) (do : string)
    (x0 x1 : option DataFrame) (randomize save correlation preprocessing : bool)
    (w w' : World) (fr : L.t) :
  loading folder plot do x0 x1 randomize save correlation preprocessing w
    = (w', inr fr) ->
  exists f t0 t1 w1 w2 w3 w4 w5 w6 X_rest y_rest,
    folder = Some f /\
    load_samples do x0 x1
      {| rng := rng w; trace := trace w ++ [MkDirs [(f ++ do)%string]] |}
      = (w1, inr (L.legend fr, L.variables fr, Some t0, Some t1)) /\
    L.n_target fr = len t1 /\
    balance randomize t0 (len t1) w1 = (w2, inr (L.X0 fr, L.X0_test fr)) /\
    (if correlation then correlation_plot do (L.variables fr) t0 w2 = (w3, inr tt)
     else w3 = w2) /\
    (if preprocessing
     then preprocess (L.variables fr) t0 t1 w3 = (w4, inr (L.x0 fr, L.x1 fr))
     else w4 = w3 /\ L.x0 fr = t0 /\ L.x1 fr = t1) /\
    L.X1 fr = to_numpy (L.x1 fr) /\
    combine (L.X0 fr) (L.X1 fr) w4 = (w5, inr (L.x fr, L.y fr)) /\
    train_test_split (L.x fr) (L.y fr) (40 # 100)
      = inr (X_rest, L.X_test fr, y_rest, L.y_test fr) /\
    train_test_split X_rest y_rest (50 # 100)
      = inr (L.X_train fr, L.X_val fr, L.y_train fr, L.y_val fr) /\
    trace w6 = trace w5 ++ saved_files (f ++ do)%string fr /\
    (if plot then exists l, L.legend fr = Some l /\ shape1 (L.X0 fr) <> 0 /\
                  trace w' = trace w6 ++ [Drawn l; Printed "saving plots" None]
     else w' = w6).
Proof.
  unfold loading. intros H. minv.
  apply str_add_inr in Hm as (f & -> & -> & ->).
  unfold create_missing_folders in Hm0.
  repeat (minv_step || match goal with p : prod _ _ |- _ => destruct p end).
  repeat match goal with
         | H : attr _ _ = _ |- _ => apply attr_inr in H as [-> ->]
         | H : save_arrays _ _ _ _ _ _ _ _ _ _ _ _ _ = _ |- _ =>
             apply save_arrays_inr in H as [? ?]
         end.
  repeat match goal with u : unit |- _ => destruct u end.
  subst. simpl.
  exists f. do 2 eexists. do 3 eexists.
  match goal with H : combine _ _ ?wa = (?wb, _) |- _ => exists wa, wb end.
  match goal with H : trace ?wc = _ ++ _ |- _ => exists wc end.
  do 2 eexists.
  split; [reflexivity|]. split; [eassumption|]. split; [reflexivity|].
  split; [eassumption|].
  split.
  { destruct correlation; [|by minv].
    eassumption. }
  split.
  { destruct preprocessing; [eassumption|].
    minv. match goal with H : (_, _) = (_, _) |- _ => inversion H end. by subst. }
  split; [reflexivity|]. split; [eassumption|]. split; [eassumption|].
  split; [eassumption|]. split; [eassumption|].
  destruct plot; [|by minv]. minv.
  match goal with H : draw _ _ _ = _ |- _ => unfold draw in H end.
  destruct (shape1 _ =? 0)%nat eqn:Hs; [minv|]. apply Nat.eqb_neq in Hs.
  destruct o1 as [lg|]; minv. subst. simpl.
  exists lg. rewrite <- app_assoc. auto.
Qed.

End Whole.

(** *** Numbers *)

Lemma Qltb_lt (a b : Q) : Qltb a b = true <-> (a < b)%Q.
Proof.
  unfold Qltb. rewrite negb_true_iff.
  split; intros H.
  - apply Qnot_le_lt. intros Hle. apply Qle_bool_iff in Hle. congruence.
  - destruct (Qle_bool b a) eqn:Hb; [|done].
    apply Qle_bool_iff in Hb. exfalso. by apply (Qlt_not_le a b).
Qed.

Lemma Qsum_cons (v : Q) (s : list Q) : (Qsum (v :: s) == v + Qsum s)%Q.
Proof. unfold Qsum. simpl. apply Qred_correct. Qed.

Lemma Qsum_nonneg (s : list Q) :
  Forall (fun v => (0 <= v)%Q) s -> (0 <= Qsum s)%Q.
Proof.
  induction 1 as [|v s Hv _ IH].
  - apply Qle_refl.
  - rewrite Qsum_cons. lra.
Qed.

Lemma Qsum_div (s : list Q) (d : Q) :
  ~ (d == 0)%Q -> (Qsum (map (fun v => v / d) s) == Qsum s / d)%Q.
Proof.
  intros Hd. induction s as [|v s IH].
  - unfold Qsum. simpl. field. exact Hd.
  - change (map (fun v0 => v0 / d) (v :: s))%Q
      with ((v / d)%Q :: map (fun v0 => (v0 / d)%Q) s).
    rewrite !Qsum_cons, IH. field. exact Hd.
Qed.

(** The comparisons on squares against rational bounds of the standard
    deviation: whatever passes below [m + k * s] for a lower bound [s] of
    the root of [v] passes [lt_upper], and whatever passes [lt_upper] lies
    below [m + k * s] for every upper bound [s]. *)
Lemma lt_upper_lower_bound (x m k v s : Q) :
  (0 <= k)%Q -> (0 <= s)%Q -> (s * s <= v)%Q -> (x < m + k * s)%Q ->
  lt_upper x (Some {| lim_mean := m; lim_factor := k; lim_var := v |}) = true.
Proof.
  intros Hk Hs Hv Hx. unfold lt_upper. simpl.
  apply orb_true_iff.
  destruct (Qlt_le_dec (x - m) 0) as [Hd|Hd].
  - left. by apply Qltb_lt.
  - right. apply Qltb_lt. nra.
Qed.

Lemma lt_upper_upper_bound (x m k v s : Q) :
  (0 <= k)%Q -> (0 <= s)%Q -> (v <= s * s)%Q ->
  lt_upper x (Some {| lim_mean := m; lim_factor := k; lim_var := v |}) = true ->
  (x < m + k * s)%Q.
Proof.
  intros Hk Hs Hv. unfold lt_upper. simpl. rewrite orb_true_iff, !Qltb_lt.
  intros [Hd|Hd].
  - nra.
  - destruct (Qlt_le_dec x (m + k * s)) as [?|Hge]; [done|]. exfalso.
    assert (Hks : (0 <= k * s)%Q) by nra.
    assert (H1 : (k * s * (k * s) <= (x - m) * (x - m))%Q) by nra.
    assert (H2 : (k * k * v <= k * k * (s * s))%Q) by nra.
    nra.
Qed.

Lemma gt_lower_lower_bound (x m k v s : Q) :
  (0 <= k)%Q -> (0 <= s)%Q -> (s * s <= v)%Q -> (m - k * s < x)%Q ->
  gt_lower x (Some {| lim_mean := m; lim_factor := k; lim_var := v |}) = true.
Proof.
  intros Hk Hs Hv Hx. unfold gt_lower. simpl.
  apply orb_true_iff.
  destruct (Qlt_le_dec (m - x) 0) as [Hd|Hd].
  - left. by apply Qltb_lt.
  - right. apply Qltb_lt. nra.
Qed.

Lemma gt_lower_upper_bound (x m k v s : Q) :
  (0 <= k)%Q -> (0 <= s)%Q -> (v <= s * s)%Q ->
  gt_lower x (Some {| lim_mean := m; lim_factor := k; lim_var := v |}) = true ->
  (m - k * s < x)%Q.
Proof.
  intros Hk Hs Hv. unfold gt_lower. simpl. rewrite orb_true_iff, !Qltb_lt.
  intros [Hd|Hd].
  - nra.
  - destruct (Qlt_le_dec (m - k * s) x) as [?|Hge]; [done|]. exfalso.
    assert (Hks : (0 <= k * s)%Q) by nra.
    assert (H1 : (k * s * (k * s) <= (m - x) * (m - x))%Q) by nra.
    assert (H2 : (k * k * v <= k * k * (s * s))%Q) by nra.
    nra.
Qed.

(** [rint] is within one half of its argument, [round2] within half a
    hundredth, and [round2] leaves two decimals. *)
Lemma rint_close (q : Q) : (Qabs (inject_Z (rint q) - q) <= 1 # 2)%Q.
Proof.
  unfold rint.
  pose proof (Qfloor_le q) as Hlo. pose proof (Qlt_floor q) as Hhi.
  rewrite inject_Z_plus in Hhi. change (inject_Z 1) with 1%Q in Hhi.
  apply Qabs_Qle_condition.
  destruct (Qcompare_spec (q - inject_Z (Qfloor q)) (1 # 2)) as [He|Hl|Hg];
    [destruct (Z.even (Qfloor q))| |];
    rewrite ?inject_Z_plus; change (inject_Z 1) with 1%Q;
    split; lra.
Qed.

Lemma round2_close (q : Q) : (Qabs (round2 q - q) <= 1 # 200)%Q.
Proof.
  pose proof (rint_close (q * 100)) as H.
  apply Qabs_Qle_condition in H as [H1 H2].
  apply Qabs_Qle_condition.
  assert (Hr : (round2 q == inject_Z (rint (q * 100)) / 100)%Q).
  { unfold round2. rewrite (Qmake_Qdiv (rint (q * 100)) 100). reflexivity. }
  rewrite Hr. set (z := inject_Z (rint (q * 100))) in *.
  assert (Hz : (z / 100 - q == (z - q * 100) * (1 # 100))%Q) by field.
  rewrite Hz. split; lra.
Qed.

Lemma round2_two_decimals (q : Q) : two_decimals (round2 q).
Proof. exists (rint (q * 100)). reflexivity. Qed.

(** *** The sample world honours the contracts *)

Lemma sample_random_sample_ok : random_sample_ok sample_env.
Proof.
  intros g n. simpl. split.
  - by rewrite length_map, length_seq.
  - apply Forall_forall. intros u Hu.
    apply list_elem_of_fmap in Hu as (i & -> & _).
    pose proof (Nat.mod_upper_bound (g + i) 4 ltac:(lia)) as Hlt.
    unfold Qle, Qlt. simpl. lia.
Qed.

Lemma sample_randint_ok : randint_ok sample_env.
Proof. intros g hi n. simpl. by rewrite length_map, length_seq. Qed.

Lemma sample_permutation42_ok : permutation42_ok sample_env.
Proof. intros n. simpl. apply reverse_Permutation. Qed.

(** *** Labels and blocks *)

Section Claims.

Context {E : Env}.

(** C3: for every call of [loading] that returns, the combined array has as
    many rows as the label vector, the combined array is the class-0 block
    followed by the class-1 block, and the label vector is zeros up to the
    row count of the class-0 block and ones from there on. *)
Theorem loading_labels_follow_blocks
    (folder : option string) (plot : bool) (do : string)
    (x0 x1 : option DataFrame) (randomize save correlation preprocessing : bool)
    (w w' : World) (fr : L.t) :
  loading folder plot do x0 x1 randomize save correlation preprocessing w
    = (w', inr fr) ->
  shape0 (L.x fr) = shape0 (L.y fr) /\
  data (L.x fr) = data (L.X0 fr) ++ data (L.X1 fr) /\
  data (L.y fr) = replicate (shape0 (L.X0 fr)) [0%Q]
                  ++ replicate (shape0 (L.X1 fr)) [1%Q].
Proof.
  intros H.
  apply loading_inr in H
    as (f & t0 & t1 & w1 & w2 & w3 & w4 & w5 & w6 & X_rest & y_rest & H).
  destruct H as (_ & _ & _ & _ & _ & _ & _ & Hc & _).
  apply combine_inr in Hc as (_ & _ & Hx & Hy).
  rewrite Hx, Hy. unfold shape0. simpl.
  rewrite map_app, !length_app, !length_map, !length_replicate.
  repeat split.
  f_equal; apply (fmap_replicate (fun v : Q => [v])).
Qed.

(** C9: with [folder=None] the call raises at [folder+do], before any
    effect and without touching the generator; a call that returns was
    given a folder. *)
Theorem loading_without_folder_fails
    (plot : bool) (do : string) (x0 x1 : option DataFrame)
    (randomize save correlation preprocessing : bool) (w : World) :
  loading None plot do x0 x1 randomize save correlation preprocessing w
    = (w, inl TypeError) /\
  forall (folder : option string) (w' : World) (fr : L.t),
    loading folder plot do x0 x1 randomize save correlation preprocessing w
      = (w', inr fr) ->
    exists f, folder = Some f.
Proof.
  split.
  - reflexivity.
  - intros folder w' fr H. destruct folder as [f|]; [eauto|discriminate].
Qed.

End Claims.

Lemma loading_labels_follow_blocks_witness :
  exists w' fr,
    @loading sample_env (Some "out/") false "sherpaVsMG5"
      (Some x0_short) (Some x1_three) false false false false sample_world
      = (w', inr fr) /\
    shape0 (L.x fr) = shape0 (L.y fr) /\
    data (L.x fr) = data (L.X0 fr) ++ data (L.X1 fr) /\
    data (L.y fr) = replicate (shape0 (L.X0 fr)) [0%Q]
                    ++ replicate (shape0 (L.X1 fr)) [1%Q].
Proof.
  eexists. eexists. split.
  - vm_compute. reflexivity.
  - eapply (@loading_labels_follow_blocks sample_env (Some "out/") false
             "sherpaVsMG5" (Some x0_short) (Some x1_three)
             false false false false sample_world).
    vm_compute. reflexivity.
Defined.

(** *** The three-way split *)

Lemma take_rows_app_inr {A} (i1 i2 : list nat) (l r1 r2 : list A) :
  take_rows i1 l = inr r1 -> take_rows i2 l = inr r2 ->
  take_rows (i1 ++ i2) l = inr (r1 ++ r2).
Proof.
  revert r1. induction i1 as [|i i1 IH]; simpl; intros r1 H1 H2.
  - by inversion H1.
  - destruct (l !! i) as [a|]; [|discriminate].
    destruct (take_rows i1 l) as [e|r] eqn:Hr; [discriminate|].
    inversion H1; subst. by rewrite (IH r eq_refl H2).
Qed.

Section SplitCounts.

Context {E : Env}.
Hypothesis Hperm : permutation42_ok E.

Lemma permutation42_length (n : nat) : length (permutation42 n) = n.
Proof. rewrite (Permutation_length (Hperm n)). apply length_seq. Qed.

(** One split: the sizes of the parts, and the parts as a rearrangement
    of the whole. *)
Lemma train_test_split_parts (x y : ndarray) (test_size : Q)
    (x_train x_test y_train y_test : ndarray) :
  train_test_split x y test_size = inr (x_train, x_test, y_train, y_test) ->
  let n := shape0 x in
  let n_test := Z.to_nat (Qceiling (test_size * Qof_nat n)) in
  n_test < n /\
  shape0 x_test = n_test /\ shape0 x_train = n - n_test /\
  shape0 y_test = n_test /\ shape0 y_train = n - n_test /\
  Permutation (data x_train ++ data x_test) (data x) /\
  Permutation (data y_train ++ data y_test) (data y).
Proof.
  intros H n n_test.
  apply train_test_split_inr in H as (Hy & Hpos & H1 & H2 & H3 & H4).
  fold n in Hy, Hpos, H1, H2, H3, H4. fold n_test in Hpos, H1, H2, H3, H4.
  pose proof (permutation42_length n) as Hlen.
  assert (Hdrop : take (n - n_test) (drop n_test (permutation42 n))
                  = drop n_test (permutation42 n)).
  { apply take_ge. rewrite length_drop. lia. }
  rewrite Hdrop in H1, H3.
  apply fancy_inr in H1 as [_ H1]. apply fancy_inr in H2 as [_ H2].
  apply fancy_inr in H3 as [_ H3]. apply fancy_inr in H4 as [_ H4].
  assert (Hidx : Permutation (drop n_test (permutation42 n)
                              ++ take n_test (permutation42 n)) (seq 0 n)).
  { rewrite Permutation_app_comm, take_drop. apply Hperm. }
  split; [lia|].
  unfold shape0.
  rewrite (take_rows_length _ _ _ H1), (take_rows_length _ _ _ H2),
    (take_rows_length _ _ _ H3), (take_rows_length _ _ _ H4).
  rewrite length_take, length_drop, Hlen.
  repeat split; try lia.
  - eapply take_rows_permutation; [by apply take_rows_app_inr|exact Hidx].
  - eapply take_rows_permutation; [by apply take_rows_app_inr|].
    fold (shape0 y). rewrite Hy. exact Hidx.
Qed.

(** C5: the partitions come from two calls of the split with the seed 42,
    the first with the test fraction 0.40 on the combined array, the second
    with the fraction 0.50 on what the first left; the row counts of the
    three parts are given by the total alone and add up to it (the same for
    the labels), and the three parts together are a rearrangement of the
    rows of the combined array. *)
Theorem loading_split_counts
    (folder : option string) (plot : bool) (do : string)
    (x0 x1 : option DataFrame) (randomize save correlation preprocessing : bool)
    (w w' : World) (fr : L.t) :
  loading folder plot do x0 x1 randomize save correlation preprocessing w
    = (w', inr fr) ->
  let n := shape0 (L.x fr) in
  let n_test := (2 * n + 4) / 5 in
  let n_val := (n - n_test + 1) / 2 in
  let n_train := n - n_test - n_val in
  (exists X_rest y_rest,
     train_test_split (L.x fr) (L.y fr) (40 # 100)
       = inr (X_rest, L.X_test fr, y_rest, L.y_test fr) /\
     train_test_split X_rest y_rest (50 # 100)
       = inr (L.X_train fr, L.X_val fr, L.y_train fr, L.y_val fr)) /\
  shape0 (L.X_test fr) = n_test /\ shape0 (L.X_val fr) = n_val /\
  shape0 (L.X_train fr) = n_train /\
  shape0 (L.y_test fr) = n_test /\ shape0 (L.y_val fr) = n_val /\
  shape0 (L.y_train fr) = n_train /\
  0 < n_train /\
  shape0 (L.X_train fr) + shape0 (L.X_val fr) + shape0 (L.X_test fr) = n /\
  shape0 (L.y_train fr) + shape0 (L.y_val fr) + shape0 (L.y_test fr) = n /\
  Permutation (data (L.X_train fr) ++ data (L.X_val fr) ++ data (L.X_test fr))
              (data (L.x fr)) /\
  Permutation (data (L.y_train fr) ++ data (L.y_val fr) ++ data (L.y_test fr))
              (data (L.y fr)).
Proof.
  intros H n n_test n_val n_train.
  apply loading_inr in H
    as (f & t0 & t1 & w1 & w2 & w3 & w4 & w5 & w6 & X_rest & y_rest & H).
  destruct H as (_ & _ & _ & _ & _ & _ & _ & _ & Hs1 & Hs2 & _).
  pose proof (train_test_split_inr _ _ _ _ _ _ _ Hs1) as (Hyn & _).
  pose proof (train_test_split_inr _ _ _ _ _ _ _ Hs2) as (_ & Hpos2 & _).
  pose proof (train_test_split_parts _ _ _ _ _ _ _ Hs1)
    as (Hlt1 & Ha1 & Ha2 & Ha3 & Ha4 & Hp1 & Hp2).
  pose proof (train_test_split_parts _ _ _ _ _ _ _ Hs2)
    as (Hlt2 & Hb1 & Hb2 & Hb3 & Hb4 & Hq1 & Hq2).
  rewrite n_test_40 in Hlt1, Ha1, Ha2, Ha3, Ha4.
  rewrite n_test_50 in Hlt2, Hb1, Hb2, Hb3, Hb4, Hpos2.
  fold n in Hlt1, Ha1, Ha2, Ha3, Ha4. fold n_test in Hlt1, Ha1, Ha2, Ha3, Ha4.
  rewrite Ha2 in Hlt2, Hb1, Hb2, Hb3, Hb4, Hpos2.
  fold n_val in Hlt2, Hb1, Hb2, Hb3, Hb4, Hpos2.
  split; [by exists X_rest, y_rest|].
  repeat split; try (unfold n_train; lia).
  - rewrite app_assoc. rewrite Hq1. exact Hp1.
  - rewrite app_assoc. rewrite Hq2. exact Hp2.
Qed.

End SplitCounts.

Lemma loading_split_counts_witness :
  exists w' fr,
    @loading sample_env (Some "out/") false "sherpaVsMG5"
      (Some x0_four) (Some x1_three) false false true true sample_world
      = (w', inr fr) /\
    shape0 (L.x fr) = 6 /\
    shape0 (L.X_test fr) = 3 /\ shape0 (L.X_val fr) = 2 /\
    shape0 (L.X_train fr) = 1.
Proof.
  eexists. eexists. split.
  - vm_compute. reflexivity.
  - lazymatch goal with
    | |- shape0 (L.x ?fr) = _ /\ _ =>
        edestruct (fun w' => @loading_split_counts sample_env
                     sample_permutation42_ok (Some "out/") false "sherpaVsMG5"
                     (Some x0_four) (Some x1_three) false false true true
                     sample_world w' fr)
          as (_ & H1 & H2 & H3 & _)
    end.
    + vm_compute. reflexivity.
    + split; [reflexivity|]. auto.
Defined.

(** *** The preprocessing step *)

Section Preprocessing.

Context {E : Env}.

Lemma round_frame_two_decimals (df : DataFrame) :
  Forall (Forall two_decimals) (rows (round_frame df)).
Proof.
  unfold round_frame. simpl.
  apply Forall_forall. intros r Hr.
  apply list_elem_of_fmap in Hr as (r' & -> & _).
  apply Forall_forall. intros v Hv.
  apply list_elem_of_fmap in Hv as (v' & -> & _).
  apply round2_two_decimals.
Qed.


(** The second table is cut with its own limits, as the specification
    words it. *)
Lemma filter_columns_x1_own (factor : Q) (variables : list string)
    (x0 x1 a b : DataFrame) (w w' : World) :
  filter_columns factor variables x0 x1 w = (w', inr (a, b)) ->
  spec_filter_columns factor variables x1 = inr b.
Proof.
  revert x0 x1 w. induction variables as [|column rest IH]; simpl; intros x0 x1 w H.
  - minv. by inversion Hv.
  - minv. destruct a0 as [x0' x1'].
    apply filter_column_inr in Hm as (c0 & c1 & _ & H1 & _ & -> & _).
    unfold spec_filter_column. rewrite H1. eapply IH. exact H.
Qed.

Lemma preprocess_x1_own (variables : list string)
    (x0 x1 a b : DataFrame) (w w' : World) :
  preprocess variables x0 x1 w = (w', inr (a, b)) ->
  spec_preprocess variables x1 = inr b.
Proof.
  intros H.
  apply preprocess_inr in H as (f0 & f1 & w1 & w2 & Hf & -> & -> & _).
  unfold spec_preprocess. by rewrite (filter_columns_x1_own _ _ _ _ _ _ _ _ Hf).
Qed.

End Preprocessing.


(** C1, at the tables [x0_four] (rows 10, 11, 12, 13) and [x1_three] (rows
    0, 1, 2): cut with the limits of its own columns, as the specification
    words the step, the first table keeps its four rows; [preprocess] cuts
    it with the limits of the second table and leaves no row.  The second
    table is cut with its own limits. *)
Theorem preprocess_cuts_x0_with_x1_limits :
  spec_preprocess sherpa_variables x0_four = inr (round_frame x0_four) /\
  exists w' a b,
    @preprocess sample_env sherpa_variables x0_four x1_three sample_world
      = (w', inr (a, b)) /\
    rows a = [] /\
    spec_preprocess sherpa_variables x1_three = inr b /\
    len b = 3.
Proof.
  split.
  - vm_compute. reflexivity.
  - eexists. eexists. eexists. split; [vm_compute; reflexivity|].
    split; [reflexivity|]. split; vm_compute; reflexivity.
Qed.

(** *** Row counts of the combined array *)

Section RowCounts.

Context {E : Env}.

(** The stages of a call on tables passed by the caller. *)
Lemma loading_supplied_inr (folder : option string) (plot : bool) (do : string)
    (t0 t1 : DataFrame) (randomize save correlation preprocessing : bool)
    (w w' : World) (fr : L.t) :
  loading folder plot do (Some t0) (Some t1) randomize save correlation
    preprocessing w = (w', inr fr) ->
  exists f w1 w2 w3 w4,
    folder = Some f /\
    L.n_target fr = len t1 /\
    balance randomize t0 (len t1) w1 = (w2, inr (L.X0 fr, L.X0_test fr)) /\
    (if preprocessing
     then preprocess (L.variables fr) t0 t1 w3 = (w4, inr (L.x0 fr, L.x1 fr))
     else L.x0 fr = t0 /\ L.x1 fr = t1) /\
    L.X1 fr = to_numpy (L.x1 fr) /\
    shape1 (L.X0 fr) = shape1 (L.X1 fr) /\
    L.x fr = {| shape1 := shape1 (L.X0 fr);
                data := data (L.X0 fr) ++ data (L.X1 fr) |} /\
    L.y fr = reshape_column (replicate (shape0 (L.X0 fr)) 0%Q
                             ++ replicate (shape0 (L.X1 fr)) 1%Q) /\
    exists pre post,
      trace w' = pre ++ saved_files (f ++ do)%string fr ++ post.
Proof.
  intros H.
  apply loading_inr in H
    as (f & u0 & u1 & w1 & w2 & w3 & w4 & w5 & w6 & X_rest & y_rest & H).
  destruct H as (-> & Hl & Hn & Hb & _ & Hp & HX1 & Hc & _ & _ & Ht & Hplot).
  destruct (load_samples_supplied do (Some t0) (Some t1)
              {| rng := rng w; trace := trace w ++ [MkDirs [(f ++ do)%string]] |})
    as (lg & vs & Hl'); [by left|].
  rewrite Hl' in Hl. inversion Hl; subst u0 u1.
  apply combine_inr in Hc as (_ & Hs & Hx & Hy).
  exists f, w1, w2, w3, w4.
  split; [done|]. split; [done|]. split; [done|].
  split; [destruct preprocessing; [done|tauto]|].
  split; [done|]. split; [done|]. split; [done|]. split; [done|].
  destruct plot.
  - destruct Hplot as (l & _ & _ & Hw).
    exists (trace w5), [Drawn l; Printed "saving plots" None].
    by rewrite Hw, Ht, <- app_assoc.
  - subst w'. exists (trace w5), []. by rewrite app_nil_r.
Qed.

Lemma balance_rows (randomize : bool) (t0 : DataFrame) (n : nat)
    (X0 X0_test : ndarray) (w w' : World) :
  randint_ok E ->
  balance randomize t0 n w = (w', inr (X0, X0_test)) ->
  randomize = true \/ n <= len t0 ->
  shape0 X0 = n.
Proof.
  intros Hri H Hcase. apply balance_inr in H as [_ H].
  destruct randomize.
  - destruct H as (idx & randomized & Hdraw & Hf & -> & _).
    apply fancy_inr in Hf as [_ Hf]. apply take_rows_length in Hf.
    pose proof (Hri (rng w) (len t0) (2 * n)) as Hlen.
    rewrite <- Hdraw in Hlen. simpl in Hlen.
    unfold shape0, slice_to. simpl. rewrite length_take. lia.
  - destruct H as (_ & -> & _). destruct Hcase as [?|Hle]; [done|].
    unfold shape0, slice_to, values, len in *. simpl. rewrite length_take. lia.
Qed.

(** C2, amended: for every scenario tag and every pair of tables passed to
    [loading], if the call returns, the first table has at least as many
    rows as the second or randomization is on, and preprocessing is off or
    leaves the row count of the second table as it was, then the combined
    array has twice the target length of rows, and the label vector has as
    many, zeros in its first half and ones in its second. *)
Theorem loading_rows_twice_target
    (folder : option string) (plot : bool) (do : string)
    (t0 t1 : DataFrame) (randomize save correlation preprocessing : bool)
    (w w' : World) (fr : L.t) :
  randint_ok E ->
  loading folder plot do (Some t0) (Some t1) randomize save correlation
    preprocessing w = (w', inr fr) ->
  randomize = true \/ len t1 <= len t0 ->
  preprocessing = false \/ len (L.x1 fr) = len t1 ->
  L.n_target fr = len t1 /\
  shape0 (L.x fr) = 2 * L.n_target fr /\
  shape0 (L.y fr) = 2 * L.n_target fr /\
  data (L.y fr) = replicate (L.n_target fr) [0%Q]
                  ++ replicate (L.n_target fr) [1%Q].
Proof.
  intros Hri H Hx0 Hx1.
  apply loading_supplied_inr in H
    as (f & w1 & w2 & w3 & w4 & _ & Hn & Hb & Hp & HX1 & _ & Hx & Hy & _).
  pose proof (balance_rows _ _ _ _ _ _ _ Hri Hb Hx0) as H0.
  assert (H1 : shape0 (L.X1 fr) = len t1).
  { rewrite HX1. change (shape0 (to_numpy (L.x1 fr))) with (len (L.x1 fr)).
    destruct Hx1 as [->|Hx1]; [|done]. by destruct Hp as [_ ->]. }
  rewrite Hn, Hx, Hy. unfold shape0 in *. simpl.
  rewrite map_app, !length_app, !length_map, !length_replicate, H0, H1.
  repeat split; try lia.
  f_equal; apply (fmap_replicate (fun v : Q => [v])).
Qed.

End RowCounts.

Lemma loading_rows_twice_target_witness :
  exists w' fr,
    @loading sample_env (Some "out/") false "sherpaVsMG5"
      (Some x0_four) (Some x1_three) false false true true sample_world
      = (w', inr fr) /\
    L.n_target fr = 3 /\
    shape0 (L.x fr) = 6 /\
    shape0 (L.y fr) = 6 /\
    data (L.y fr) = [[0]; [0]; [0]; [1]; [1]; [1]]%Q.
Proof.
  eexists. eexists. split.
  - vm_compute. reflexivity.
  - lazymatch goal with
    | |- L.n_target ?fr = _ /\ _ =>
        edestruct (fun w' => @loading_rows_twice_target sample_env
                     (Some "out/") false "sherpaVsMG5" x0_four x1_three
                     false false true true sample_world w' fr
                     sample_randint_ok)
          as (H1 & H2 & H3 & H4)
    end.
    + vm_compute. reflexivity.
    + right. vm_compute. lia.
    + right. vm_compute. reflexivity.
    + split; [reflexivity|]. split; [reflexivity|]. split; reflexivity.
Defined.

(** C2 as stated fails: with one row in the first table and three in the
    second (preprocessing off) the call returns four rows for the target
    length three, labelled 0, 1, 1, 1; and with four rows in each table
    and all flags at their defaults, the filter empties the second table
    and the call returns four rows for the target length four, all
    labelled 0. *)
Lemma loading_rows_not_twice_target :
  (exists w' fr,
     @loading sample_env (Some "out/") false "sherpaVsMG5"
       (Some x0_short) (Some x1_three) false false false false sample_world
       = (w', inr fr) /\
     L.n_target fr = 3 /\ shape0 (L.x fr) = 4 /\
     data (L.y fr) = [[0]; [1]; [1]; [1]]%Q) /\
  (exists w' fr,
     @loading sample_env (Some "out/") false "sherpaVsMG5"
       (Some x0_four) (Some x1_constant) false false true true sample_world
       = (w', inr fr) /\
     L.n_target fr = 4 /\ shape0 (L.x fr) = 4 /\
     data (L.y fr) = [[0]; [0]; [0]; [0]]%Q).
Proof.
  split; eexists; eexists; (split; [vm_compute; reflexivity|]);
    repeat split; reflexivity.
Qed.

(** *** A call that returns *)

Section Returns.

Context {E : Env}.
Hypothesis Hperm : permutation42_ok E.

Lemma bind_run {A B} (m : M A) (k : A -> M B) (w w1 : World) (a : A) :
  m w = (w1, inr a) -> bind m k w = k a w1.
Proof. intros H. unfold bind. by rewrite H. Qed.

Lemma train_test_split_total (x y : ndarray) (test_size : Q) :
  shape0 x = shape0 y ->
  Z.to_nat (Qceiling (test_size * Qof_nat (shape0 x))) < shape0 x ->
  exists x_train x_test y_train y_test,
    train_test_split x y test_size = inr (x_train, x_test, y_train, y_test).
Proof.
  intros Hy Hlt. unfold train_test_split, validate_shuffle_split.
  rewrite <- Hy, Nat.eqb_refl. simpl.
  set (n := shape0 x) in *.
  set (n_test := Z.to_nat (Qceiling (test_size * Qof_nat n))) in *.
  destruct (n - n_test =? 0)%nat eqn:Hz; [apply Nat.eqb_eq in Hz; lia|].
  assert (Hall : Forall (fun i => i < n) (permutation42 n)).
  { apply Forall_forall. intros i Hi.
    rewrite (Hperm n) in Hi. apply elem_of_seq in Hi. lia. }
  assert (H1 : Forall (fun i => i < n)
                 (take (n - n_test) (drop n_test (permutation42 n)))).
  { apply Forall_take, Forall_drop, Hall. }
  assert (H2 : Forall (fun i => i < n) (take n_test (permutation42 n))).
  { apply Forall_take, Hall. }
  destruct (fancy_total x _ H1) as [a1 Ha1].
  destruct (fancy_total x _ H2) as [a2 Ha2].
  destruct (fancy_total y (take (n - n_test) (drop n_test (permutation42 n))))
    as [a3 Ha3]; [by rewrite <- Hy|].
  destruct (fancy_total y (take n_test (permutation42 n)))
    as [a4 Ha4]; [by rewrite <- Hy|].
  rewrite Ha1, Ha2, Ha3, Ha4. by exists a1, a2, a3, a4.
Qed.

(** Two splits in a row go through from four rows on. *)
Lemma two_splits_total (x y : ndarray) :
  shape0 x = shape0 y -> 4 <= shape0 x ->
  exists X_rest X_test y_rest y_test X_train X_val y_train y_val,
    train_test_split x y (40 # 100) = inr (X_rest, X_test, y_rest, y_test) /\
    train_test_split X_rest y_rest (50 # 100)
      = inr (X_train, X_val, y_train, y_val).
Proof.
  intros Hy Hn.
  assert (Hdiv : (2 * shape0 x + 4) / 5 <= shape0 x - 2).
  { pose proof (Nat.div_mod_eq (2 * shape0 x + 4) 5).
    pose proof (Nat.mod_upper_bound (2 * shape0 x + 4) 5). lia. }
  destruct (train_test_split_total x y (40 # 100) Hy)
    as (X_rest & X_test & y_rest & y_test & H1).
  { rewrite n_test_40. lia. }
  pose proof (train_test_split_parts Hperm _ _ _ _ _ _ _ H1)
    as (_ & _ & Hr & _ & Hyr & _).
  rewrite n_test_40 in Hr, Hyr.
  destruct (train_test_split_total X_rest y_rest (50 # 100))
    as (X_train & X_val & y_train & y_val & H2).
  { lia. }
  { rewrite n_test_50.
    pose proof (Nat.div_mod_eq (shape0 X_rest + 1) 2).
    pose proof (Nat.mod_upper_bound (shape0 X_rest + 1) 2). lia. }
  exists X_rest, X_test, y_rest, y_test, X_train, X_val, y_train, y_val. auto.
Qed.

(** With a folder, two tables of the same width, at least four rows
    between the class-0 slice and the second table, and randomization,
    correlation, preprocessing and plotting off, the call returns. *)
Lemma loading_plain_returns (f do : string) (t0 t1 : DataFrame) (save : bool)
    (w : World) :
  length (columns t0) = length (columns t1) ->
  4 <= min (len t1) (len t0) + len t1 ->
  exists w' fr,
    loading (Some f) false do (Some t0) (Some t1) false save false false w
      = (w', inr fr).
Proof.
  intros Hw Hn. unfold loading. simpl str_add.
  rewrite (bind_run _ _ w w (f ++ do)%string) by reflexivity.
  unfold create_missing_folders.
  erewrite bind_run by reflexivity.
  destruct (load_samples_supplied do (Some t0) (Some t1)
              {| rng := rng w; trace := trace w ++ [MkDirs [(f ++ do)%string]] |})
    as (lg & vs & Hl); [by left|].
  erewrite bind_run by exact Hl. cbv beta iota zeta. simpl attr.
  erewrite bind_run by reflexivity.
  erewrite bind_run by reflexivity.
  simpl balance. erewrite bind_run by reflexivity. cbv beta iota zeta.
  erewrite bind_run by reflexivity.
  erewrite bind_run by reflexivity. cbv beta iota zeta.
  unfold combine, vstack. simpl shape1.
  rewrite Hw, Nat.eqb_refl.
  erewrite bind_run by (unfold bind, lift, ret; reflexivity).
  cbv beta iota zeta.
  set (x := {| shape1 := length (columns t1);
               data := data (slice_to (shape0 (values t1)) (values t0))
                       ++ data (to_numpy t1) |}).
  set (y := reshape_column _).
  destruct (two_splits_total x y)
    as (X_rest & X_test & y_rest & y_test & X_train & X_val & y_train & y_val
        & H1 & H2).
  { unfold x, y, shape0, reshape_column, assign_from, zeros. simpl.
    repeat first [rewrite length_map | rewrite length_app | rewrite length_take
                 | rewrite length_drop | rewrite length_replicate].
    unfold shape0. simpl. lia. }
  { unfold x, shape0, len in *. simpl. rewrite length_app, length_take. lia. }
  unfold lift at 1. rewrite (bind_run _ _ _ _ _ (f_equal (pair _) H1)).
  cbv beta iota zeta.
  unfold lift at 1. rewrite (bind_run _ _ _ _ _ (f_equal (pair _) H2)).
  cbv beta iota zeta.
  unfold save_arrays, bind, emit, ret. simpl. eauto.
Qed.

(** The preprocessing step completes when every variable names a column
    of both tables. *)
Lemma preprocess_returns (variables : list string) (x0 x1 : DataFrame)
    (w : World) :
  Forall (fun v => is_Some (index_of v (columns x0)) /\
                   is_Some (index_of v (columns x1))) variables ->
  exists a b w', preprocess variables x0 x1 w = (w', inr (a, b)).
Proof.
  intros Hv. unfold preprocess.
  do 3 (erewrite bind_run by reflexivity).
  match goal with
  | |- exists _ _ _, bind (filter_columns ?f ?vs ?a ?b) _ ?w0 = _ =>
      destruct (filter_columns_total f vs a b w0 Hv) as (a' & b' & w1 & Hf)
  end.
  erewrite bind_run by exact Hf. cbv beta iota zeta.
  erewrite bind_run by reflexivity.
  unfold ret. eauto.
Qed.

End Returns.

(** *** The generator comparison on 1000 and 400 rows *)

Section GeneratorComparison.

Context {E : Env}.

(** C4, amended: with the scenario [sherpaVsMG5], a first table of 1000
    rows, a second of 400 rows and randomization off, in a call that
    returns the class-0 train slice is the first 400 rows of the first
    table and the class-0 test slice its last 400 rows; when preprocessing
    is off, or leaves the second table its 400 rows, the combined array
    has 800 rows and the label vector is 400 zeros followed by 400 ones.
    With tables of equal width and correlation, preprocessing and plotting
    off, the call returns. *)
Theorem generator_comparison_1000_400
    (f : string) (t0 t1 : DataFrame) (w : World) :
  permutation42_ok E ->
  len t0 = 1000 -> len t1 = 400 ->
  (forall (plot save correlation preprocessing : bool) (w' : World) (fr : L.t),
     loading (Some f) plot "sherpaVsMG5" (Some t0) (Some t1) false save
       correlation preprocessing w = (w', inr fr) ->
     data (L.X0 fr) = take 400 (rows t0) /\
     data (L.X0_test fr) = drop 600 (rows t0) /\
     shape0 (L.X0 fr) = 400 /\ shape0 (L.X0_test fr) = 400 /\
     (preprocessing = false \/ len (L.x1 fr) = 400 ->
      shape0 (L.x fr) = 800 /\
      data (L.y fr) = replicate 400 [0%Q] ++ replicate 400 [1%Q])) /\
  (length (columns t0) = length (columns t1) ->
   forall save : bool, exists w' fr,
     loading (Some f) false "sherpaVsMG5" (Some t0) (Some t1) false save
       false false w = (w', inr fr)).
Proof.
  intros Hperm H0 H1. split.
  - intros plot save correlation preprocessing w' fr H.
    apply loading_supplied_inr in H
      as (f' & w1 & w2 & w3 & w4 & _ & Hn & Hb & Hp & HX1 & _ & Hx & Hy & _).
    apply balance_inr in Hb as (_ & _ & HX0 & HX0t).
    rewrite HX0, HX0t. unfold shape0, slice_to, slice_last, len in *.
    simpl. rewrite H1, H0. simpl.
    rewrite length_take, length_drop, H0.
    repeat split; try lia.
    + rewrite Hx, HX0. simpl. rewrite length_app, length_take, H0, H1, HX1.
      simpl. destruct H as [->|H]; [destruct Hp as [_ ->]|]; lia.
    + rewrite Hy, HX0, HX1. simpl.
      replace (length (rows (L.x1 fr))) with 400
        by (destruct H as [->|H]; [destruct Hp as [_ ->]|]; lia).
      rewrite length_take, H0, H1. simpl Nat.min.
      rewrite map_app. f_equal; apply (fmap_replicate (fun v : Q => [v])).
  - intros Hw save. apply loading_plain_returns; [done|done|].
    rewrite H0, H1. simpl. lia.
Qed.

End GeneratorComparison.

Lemma generator_comparison_1000_400_witness :
  exists w' fr,
    @loading sample_env (Some "out/") false "sherpaVsMG5"
      (Some x0_thousand) (Some x1_plain) false false false false sample_world
      = (w', inr fr) /\
    data (L.X0 fr) = take 400 (rows x0_thousand) /\
    data (L.X0_test fr) = drop 600 (rows x0_thousand) /\
    shape0 (L.x fr) = 800 /\
    data (L.y fr) = replicate 400 [0%Q] ++ replicate 400 [1%Q].
Proof.
  destruct (@generator_comparison_1000_400 sample_env "out/"
              x0_thousand x1_plain sample_world sample_permutation42_ok)
    as [Hthm Hret].
  - vm_compute. reflexivity.
  - vm_compute. reflexivity.
  - destruct (Hret eq_refl false) as (w' & fr & Hrun).
    exists w', fr. split; [exact Hrun|].
    destruct (Hthm false false false false w' fr Hrun)
      as (H1 & H2 & _ & _ & H3).
    destruct H3 as [H3 H4]; [by left|]. auto.
Defined.
(** C4 as stated fails: 1000 rows in the first table, 400 in the second,
    the scenario [sherpaVsMG5], randomization off and the other flags at
    their defaults; the second table has one row beyond three standard
    deviations, the filter removes it, and the combined array has 799
    rows, labelled by 400 zeros and 399 ones. *)
Lemma generator_comparison_799_rows :
  len x0_thousand = 1000 /\ len x1_outlier = 400 /\
  exists w' fr,
    @loading sample_env (Some "out/") false "sherpaVsMG5"
      (Some x0_thousand) (Some x1_outlier) false false true true sample_world
      = (w', inr fr) /\
    shape0 (L.x fr) = 799 /\
    data (L.y fr) = replicate 400 [0%Q] ++ replicate 399 [1%Q].
Proof.
  split; [vm_compute; reflexivity|]. split; [vm_compute; reflexivity|].
  eexists. eexists. split; [vm_compute; reflexivity|].
  split; vm_compute; reflexivity.
Qed.

(** *** Widths and column names *)

Section Widths.

Context {E : Env}.

Lemma bind_fail {A B} (m : M A) (k : A -> M B) (w w1 : World) (e : Exn) :
  m w = (w1, inl e) -> bind m k w = (w1, inl e).
Proof. intros H. unfold bind. by rewrite H. Qed.

Lemma preprocess_columns (variables : list string) (x0 x1 a b : DataFrame)
    (w w' : World) :
  preprocess variables x0 x1 w = (w', inr (a, b)) ->
  columns a = columns x0 /\ columns b = columns x1.
Proof.
  intros H.
  apply preprocess_inr in H as (f0 & f1 & w1 & w2 & Hf & -> & -> & _).
  apply filter_columns_inr in Hf as (H0 & H1 & _). by simpl.
Qed.

Lemma balance_width (randomize : bool) (t0 : DataFrame) (n : nat)
    (X0 X0_test : ndarray) (w w' : World) :
  balance randomize t0 n w = (w', inr (X0, X0_test)) ->
  shape1 X0 = length (columns t0) /\ shape1 X0_test = length (columns t0).
Proof.
  intros H. apply balance_inr in H as [_ H]. destruct randomize.
  - destruct H as (idx & randomized & _ & Hf & -> & ->).
    apply fancy_inr in Hf as [Hs _]. simpl. by rewrite Hs.
  - by destruct H as (_ & -> & ->).
Qed.

(** A call on tables passed by the caller returns only if they have the
    same number of columns. *)
Lemma loading_returns_equal_widths (folder : option string) (plot : bool)
    (do : string) (t0 t1 : DataFrame)
    (randomize save correlation preprocessing : bool)
    (w w' : World) (fr : L.t) :
  loading folder plot do (Some t0) (Some t1) randomize save correlation
    preprocessing w = (w', inr fr) ->
  length (columns t0) = length (columns t1).
Proof.
  intros H.
  apply loading_supplied_inr in H
    as (f & w1 & w2 & w3 & w4 & _ & _ & Hb & Hp & HX1 & Hs & _).
  apply balance_width in Hb as [Hb _].
  rewrite Hb, HX1 in Hs. rewrite Hs. simpl.
  destruct preprocessing.
  - apply preprocess_columns in Hp as [_ Hc]. by rewrite Hc.
  - by destruct Hp as [_ ->].
Qed.


End Widths.



(** *** Class-0 rows and preprocessing *)

Section Class0.

Context {E : Env}.


End Class0.


(** *** Weighted resampling *)

Lemma searchsorted_right_snoc (a : list Q) (c u : Q) :
  (u < c)%Q -> searchsorted_right (a ++ [c]) u < length (a ++ [c]).
Proof.
  intros Hu. induction a as [|x a IH]; simpl.
  - destruct (Qle_bool c u) eqn:Hc; [|lia].
    apply Qle_bool_iff in Hc. exfalso. by apply (Qlt_not_le u c).
  - destruct (Qle_bool x u); lia.
Qed.

Lemma cumsum_from_snoc (acc : Q) (p : list Q) :
  p <> [] ->
  exists l c, cumsum_from acc p = l ++ [c] /\ (c == acc + Qsum p)%Q.
Proof.
  revert acc. induction p as [|v p IH]; intros acc Hp; [done|].
  destruct p as [|v' p'].
  - exists [], (acc + v)%Q. split; [done|].
    rewrite Qsum_cons. unfold Qsum. simpl. lra.
  - destruct (IH (acc + v)%Q) as (l & c & Hl & Hc); [done|].
    exists ((acc + v)%Q :: l), c. split.
    + change (cumsum_from acc (v :: v' :: p'))
        with ((acc + v)%Q :: cumsum_from (acc + v)%Q (v' :: p')).
      by rewrite Hl.
    + rewrite Hc, (Qsum_cons v (v' :: p')). lra.
Qed.

Lemma existsb_negative (p : list Q) :
  existsb (fun v => Qltb v 0) p = false -> Forall (fun v => (0 <= v)%Q) p.
Proof.
  induction p as [|v p IH]; simpl; intros H; [constructor|].
  apply orb_false_iff in H as [Hv Hp]. constructor; [|by apply IH].
  destruct (Qlt_le_dec v 0) as [Hlt|Hle]; [|done].
  apply Qltb_lt in Hlt. congruence.
Qed.

Lemma series_div_Some (s : list Q) (d : Q) (p : list Q) :
  series_div s d = Some p -> ~ (d == 0)%Q /\ p = map (fun v => v / d)%Q s.
Proof.
  unfold series_div. destruct (Qeq_bool d 0) eqn:Hd; [discriminate|].
  intros H. inversion H. split; [|done].
  intros Hz. apply Qeq_bool_iff in Hz. congruence.
Qed.

Section Resampling.

Context {E : Env}.
Hypothesis Hrs : random_sample_ok E.

(** A draw that succeeds: [p] is a probability distribution over the
    population, the draw has [size] positions, and each lies in the
    population. *)
Lemma choice_p_inr (pop_size : nat) (size : Z) (p : option (list Q))
    (idx : list nat) (w w' : World) :
  choice_p pop_size size p w = (w', inr idx) ->
  exists q,
    p = Some q /\ length q = pop_size /\
    Forall (fun v => (0 <= v)%Q) q /\ (Qsum q == 1)%Q /\
    Z.of_nat (length idx) = size /\
    Forall (fun k => k < pop_size) idx /\
    trace w' = trace w.
Proof.
  unfold choice_p. intros H.
  destruct (_ && _) in H; [minv|].
  destruct p as [q|]; [|minv]. exists q.
  destruct (length q =? pop_size)%nat eqn:Hlen; simpl in H; [|minv].
  apply Nat.eqb_eq in Hlen.
  destruct (existsb _ q) eqn:Hneg; [minv|].
  apply existsb_negative in Hneg.
  destruct (Qeq_bool (Qsum q) 1) eqn:Hsum; simpl in H; [|minv].
  apply Qeq_bool_iff in Hsum.
  destruct (size <? 0)%Z eqn:Hsize; [minv|].
  apply Z.ltb_ge in Hsize.
  minv. subst idx.
  unfold np_random_sample in Hm.
  pose proof (Hrs (rng w) (Z.to_nat size)) as [Hn Hu].
  destruct (random_sample (rng w) (Z.to_nat size)) as [u g].
  inversion Hm; subst. simpl in *.
  repeat split; auto.
  - rewrite length_map, Hn. lia.
  - assert (Hq : q <> []).
    { intros ->. unfold Qsum in Hsum. simpl in Hsum. discriminate. }
    destruct (cumsum_from_snoc 0 q Hq) as (l & c & Hc & Hcq).
    unfold cumsum. rewrite Hc, last_snoc. simpl.
    assert (Hc1 : (c == 1)%Q) by (rewrite Hcq, Hsum; lra).
    apply Forall_forall. intros k Hk.
    apply list_elem_of_fmap in Hk as (v & -> & Hv).
    rewrite Forall_forall in Hu. destruct (Hu v Hv) as [_ Hv1].
    rewrite map_app. simpl.
    replace (length q) with (length (map (fun c0 => (c0 / c)%Q) l ++ [(c / c)%Q])).
    + apply searchsorted_right_snoc. rewrite Hc1. exact Hv1.
    + rewrite length_app, length_map. simpl.
      assert (Hl : length (cumsum_from 0 q) = length q).
      { clear. generalize 0%Q. induction q as [|v q IH]; intros acc; simpl; [done|].
        by rewrite IH. }
      rewrite Hc, length_app in Hl. simpl in Hl. lia.
Qed.

Lemma resample_inr (t wt : DataFrame) (ws : list Q) (i : list nat)
    (r : DataFrame) (w w' : World) :
  get_column wt "truthWeight" = inr ws ->
  choice_p (len t) (int_of_float (Qsum ws)) (series_div ws (Qsum ws)) w
    = (w', inr i) ->
  iloc t i = inr r ->
  resampled t wt r.
Proof.
  intros Hws Hc Hi.
  apply choice_p_inr in Hc as (q & Hq & Hlen & Hpos & Hsum & Hsize & Hb & _).
  apply series_div_Some in Hq as [_ ->].
  exists ws, (map (fun v => (v / Qsum ws)%Q) ws), i. auto 10.
Qed.

Lemma truthWeight_inr (wx : DataFrame) (s : list Q) (w w' : World) :
  truthWeight wx w = (w', inr s) ->
  get_column wx "truthWeight" = inr s /\ w' = w.
Proof.
  unfold truthWeight. destruct (get_column wx "truthWeight") as [e|s'];
    intros H; minv. by subst.
Qed.

Lemma load_file_inr (filename : string) (variables : list string)
    (df : DataFrame) (w w' : World) :
  load_file filename variables w = (w', inr df) ->
  load filename variables = inr df.
Proof. unfold load_file. intros H. minv. by subst. Qed.


End Resampling.



(** ** Further properties of the loader *)

(** *** Frames *)

Section FrameLemmas.

Context {E : Env}.

Lemma bind_cases {A B} (m : M A) (k : A -> M B) (w w' : World) (r : Exn + B) :
  bind m k w = (w', r) ->
  (exists e, m w = (w', inl e) /\ r = inl e) \/
  (exists a w1, m w = (w1, inr a) /\ k a w1 = (w', r)).
Proof.
  unfold bind. destruct (m w) as [w1 [e|a]]; intros H.
  - left. inversion H. eauto.
  - right. eauto.
Qed.

Lemma extends_refl (keep_rng : bool) (allowed : Event -> bool) (w : World) :
  extends keep_rng allowed w w.
Proof. split; [done|]. exists []. by rewrite app_nil_r. Qed.

Lemma extends_trans (keep_rng : bool) (allowed : Event -> bool) (w1 w2 w3 : World) :
  extends keep_rng allowed w1 w2 -> extends keep_rng allowed w2 w3 ->
  extends keep_rng allowed w1 w3.
Proof.
  intros [Hr1 (e1 & Ht1 & Ha1)] [Hr2 (e2 & Ht2 & Ha2)]. split.
  - intros Hk. by rewrite (Hr2 Hk), (Hr1 Hk).
  - exists (e1 ++ e2). rewrite Ht2, Ht1, <- app_assoc. split; [done|].
    rewrite forallb_app. by rewrite Ha1, Ha2.
Qed.

Section Generic.

Variable keep_rng : bool.
Variable allowed : Event -> bool.
Hypothesis allowed_unsaved : forall ev, is_saved ev = false -> allowed ev = true.

Lemma frames_ret {A} (a : A) : frames (extends keep_rng allowed) (ret a).
Proof. intros w w' r H. inversion H. apply extends_refl. Qed.

Lemma frames_raise {A} (e : Exn) : frames (extends keep_rng allowed) (@raise E A e).
Proof. intros w w' r H. inversion H. apply extends_refl. Qed.

Lemma frames_lift {A} (x : Exn + A) : frames (extends keep_rng allowed) (lift x).
Proof. intros w w' r H. inversion H. apply extends_refl. Qed.

Lemma frames_emit (ev : Event) : is_saved ev = false -> frames (extends keep_rng allowed) (emit ev).
Proof.
  intros Hev w w' r H. inversion H. split; [done|].
  exists [ev]. simpl. by rewrite (allowed_unsaved ev Hev).
Qed.

Lemma frames_emit_allowed (ev : Event) :
  allowed ev = true -> frames (extends keep_rng allowed) (emit ev).
Proof.
  intros Hev w w' r H. inversion H. split; [done|].
  exists [ev]. simpl. by rewrite Hev.
Qed.

Lemma frames_bind {A B} (m : M A) (k : A -> M B) :
  frames (extends keep_rng allowed) m -> (forall a, frames (extends keep_rng allowed) (k a)) -> frames (extends keep_rng allowed) (bind m k).
Proof.
  intros Hm Hk w w' r H.
  apply bind_cases in H as [(e & H & _)|(a & w1 & H1 & H2)].
  - by eapply Hm.
  - eapply extends_trans; [by eapply Hm|by eapply Hk].
Qed.

Lemma frames_str_add (folder : option string) (do : string) :
  frames (extends keep_rng allowed) (str_add folder do).
Proof. destruct folder; [apply frames_ret|apply frames_raise]. Qed.

Lemma frames_attr (o : option DataFrame) : frames (extends keep_rng allowed) (attr o).
Proof. destruct o; [apply frames_ret|apply frames_raise]. Qed.

Lemma frames_load_file (filename : string) (variables : list string) :
  frames (extends keep_rng allowed) (load_file filename variables).
Proof.
  apply frames_bind; [apply frames_lift|]. intros df.
  apply frames_bind; [by apply frames_emit|]. intros _. apply frames_ret.
Qed.

Lemma frames_truthWeight (wx : DataFrame) : frames (extends keep_rng allowed) (truthWeight wx).
Proof.
  unfold truthWeight. destruct (get_column wx "truthWeight");
    [apply frames_raise|apply frames_ret].
Qed.

Lemma frames_correlation_plot (do : string) (variables : list string)
    (x0 : DataFrame) : frames (extends keep_rng allowed) (correlation_plot do variables x0).
Proof.
  destruct variables as [|v0 vs]; [apply frames_raise|]. simpl.
  apply frames_bind; [apply frames_lift|]. intros _.
  apply frames_bind; [by apply frames_emit|]. intros _. by apply frames_emit.
Qed.

Lemma frames_filter_column (factor : Q) (column : string) (x0 x1 : DataFrame) :
  frames (extends keep_rng allowed) (filter_column factor column x0 x1).
Proof.
  unfold filter_column.
  apply frames_bind; [apply frames_lift|]. intros c0.
  apply frames_bind; [apply frames_lift|]. intros c1.
  apply frames_bind; [by apply frames_emit|]. intros _.
  apply frames_bind; [by apply frames_emit|]. intros _.
  apply frames_bind; [by apply frames_emit|]. intros _.
  apply frames_ret.
Qed.

Lemma frames_filter_columns (factor : Q) (variables : list string)
    (x0 x1 : DataFrame) : frames (extends keep_rng allowed) (filter_columns factor variables x0 x1).
Proof.
  revert x0 x1. induction variables as [|column rest IH]; intros x0 x1; simpl.
  - apply frames_ret.
  - apply frames_bind; [apply frames_filter_column|]. intros [a b]. apply IH.
Qed.

Lemma frames_preprocess (variables : list string) (x0 x1 : DataFrame) :
  frames (extends keep_rng allowed) (preprocess variables x0 x1).
Proof.
  unfold preprocess.
  apply frames_bind; [by apply frames_emit|]. intros _.
  apply frames_bind; [by apply frames_emit|]. intros _.
  apply frames_bind; [by apply frames_emit|]. intros _.
  apply frames_bind; [apply frames_filter_columns|]. intros [a b].
  apply frames_bind; [by apply frames_emit|]. intros _.
  apply frames_ret.
Qed.

Lemma frames_combine (X0 X1 : ndarray) : frames (extends keep_rng allowed) (combine X0 X1).
Proof.
  unfold combine. apply frames_bind; [apply frames_lift|]. intros x.
  apply frames_ret.
Qed.

Lemma frames_draw (X0 : ndarray) (legend : option (list string)) :
  frames (extends keep_rng allowed) (draw X0 legend).
Proof.
  unfold draw. destruct (shape1 X0 =? 0)%nat; [apply frames_raise|].
  destruct legend; [by apply frames_emit|apply frames_raise].
Qed.

Lemma frames_balance_plain (x0 : DataFrame) (n : nat) :
  frames (extends keep_rng allowed) (balance false x0 n).
Proof. apply frames_ret. Qed.

Lemma frames_load_samples_supplied (do : string) (x0 x1 : option DataFrame) :
  x0 <> None \/ x1 <> None ->
  frames (extends keep_rng allowed) (load_samples do x0 x1).
Proof.
  intros Hs w w' r H.
  destruct (load_samples_supplied do x0 x1 w Hs) as (lg & vs & Heq).
  rewrite Heq in H. inversion H. apply extends_refl.
Qed.

Lemma frames_save_arrays (dir : string)
    (X0_test X0 X1 X_train x y X_test X_val y_train y_test y_val : ndarray) :
  (forall ev, allowed ev = true) ->
  frames (extends keep_rng allowed)
    (save_arrays dir X0_test X0 X1 X_train x y X_test X_val y_train y_test y_val).
Proof.
  intros Hall. unfold save_arrays.
  repeat (apply frames_bind; [by apply frames_emit_allowed|intros _]).
  by apply frames_emit_allowed.
Qed.

End Generic.

(** Drawing from the generator appends nothing to the trace. *)
Lemma frames_np_random_sample (allowed : Event -> bool) (n : nat) :
  frames (extends false allowed) (np_random_sample n).
Proof.
  intros w w' r H. unfold np_random_sample in H.
  destruct (random_sample (rng w) n) as [u g]. inversion H.
  split; [done|]. exists []. by rewrite app_nil_r.
Qed.

Lemma frames_np_randint (allowed : Event -> bool) (hi n : nat) :
  frames (extends false allowed) (np_randint hi n).
Proof.
  intros w w' r H. unfold np_randint in H.
  destruct (randint (rng w) hi n) as [u g]. inversion H.
  split; [done|]. exists []. by rewrite app_nil_r.
Qed.

Section Drawing.

Variable allowed : Event -> bool.
Hypothesis allowed_unsaved : forall ev, is_saved ev = false -> allowed ev = true.

Lemma frames_choice (pop_size size : nat) :
  frames (extends false allowed) (choice pop_size size).
Proof.
  unfold choice. destruct (_ && _); [apply frames_raise|apply frames_np_randint].
Qed.

Lemma frames_choice_p (pop_size : nat) (size : Z) (p : option (list Q)) :
  frames (extends false allowed) (choice_p pop_size size p).
Proof.
  unfold choice_p. destruct (_ && _); [apply frames_raise|].
  destruct p as [q|]; [|apply frames_raise].
  destruct (negb _); [apply frames_raise|].
  destruct (existsb _ q); [apply frames_raise|].
  destruct (negb _); [apply frames_raise|].
  destruct (size <? 0)%Z; [apply frames_raise|].
  apply frames_bind; [apply frames_np_random_sample|]. intros u. apply frames_ret.
Qed.

Lemma frames_balance (randomize : bool) (x0 : DataFrame) (n : nat) :
  frames (extends false allowed) (balance randomize x0 n).
Proof.
  destruct randomize; [|apply frames_ret]. unfold balance.
  apply frames_bind; [apply frames_choice|]. intros idx.
  apply frames_bind; [apply frames_lift|]. intros a. apply frames_ret.
Qed.

Lemma frames_load_samples (do : string) (x0 x1 : option DataFrame) :
  frames (extends false allowed) (load_samples do x0 x1).
Proof.
  unfold load_samples.
  destruct (String.eqb do "sherpaVsMG5"); [|destruct (String.eqb do "mur");
    [|destruct (String.eqb do "qsf")]];
    destruct x0, x1; try apply frames_ret;
    repeat (apply frames_bind;
            [first [by apply frames_load_file | apply frames_truthWeight
                   | apply frames_choice_p | apply frames_lift]
            |intros ?]);
    apply frames_ret.
Qed.

End Drawing.

(** A run that extends the trace by events other than [np.save] calls
    leaves the saved files as they were. *)
Lemma extends_saved (keep_rng : bool) (w w' : World) :
  extends keep_rng (fun ev => negb (is_saved ev)) w w' ->
  saved_events (trace w') = saved_events (trace w).
Proof.
  intros [_ (evs & -> & Hevs)]. unfold saved_events.
  rewrite List.filter_app.
  assert (Hnil : List.filter is_saved evs = []).
  { induction evs as [|ev evs IH]; simpl in *; [done|].
    apply andb_true_iff in Hevs as [Hev Hevs].
    apply negb_true_iff in Hev. rewrite Hev. by apply IH. }
  by rewrite Hnil, app_nil_r.
Qed.

End FrameLemmas.

(** *** The generator and the saved files *)

Section Effects.

Context {E : Env}.

(** X1: a call without randomization on at least one table passed by the
    caller leaves numpy's global generator in the state it found it,
    whether the call returns or raises, and only appends to the trace. *)
Theorem loading_leaves_generator
    (folder : option string) (plot : bool) (do : string)
    (x0 x1 : option DataFrame) (save correlation preprocessing : bool)
    (w w' : World) (r : Exn + L.t) :
  x0 <> None \/ x1 <> None ->
  loading folder plot do x0 x1 false save correlation preprocessing w = (w', r) ->
  rng w' = rng w /\ exists evs, trace w' = trace w ++ evs.
Proof.
  intros Hs H.
  assert (Hall : forall ev, is_saved ev = false -> (fun _ : Event => true) ev = true)
    by done.
  assert (Hf : frames (extends true (fun _ => true))
                 (loading folder plot do x0 x1 false save correlation preprocessing)).
  { unfold loading.
    apply frames_bind; [by apply frames_str_add|]. intros path.
    apply frames_bind; [by apply frames_emit|]. intros _.
    apply frames_bind; [apply frames_load_samples_supplied; exact Hs|].
    intros [[[legend variables] o0] o1].
    apply frames_bind; [by apply frames_attr|]. intros t1.
    apply frames_bind; [by apply frames_attr|]. intros t0.
    apply frames_bind; [by apply frames_balance_plain|]. intros [X0 X0_test].
    apply frames_bind.
    { destruct correlation; [by apply frames_correlation_plot|by apply frames_ret]. }
    intros _. apply frames_bind.
    { destruct preprocessing; [by apply frames_preprocess|by apply frames_ret]. }
    intros [x0' x1'].
    apply frames_bind; [by apply frames_combine|]. intros [x y].
    apply frames_bind; [by apply frames_lift|].
    intros [[[X_train X_test] y_train] y_test].
    apply frames_bind; [by apply frames_lift|].
    intros [[[X_train' X_val] y_train'] y_val].
    apply frames_bind.
    { destruct folder; [by apply frames_save_arrays|by apply frames_ret]. }
    intros _. apply frames_bind.
    { destruct plot; [|by apply frames_ret].
      apply frames_bind; [by apply frames_draw|]. intros _. by apply frames_emit. }
    intros _. by apply frames_ret. }
  destruct (Hf w w' r H) as [Hr (evs & Ht & _)]. split; [by apply Hr|eauto].
Qed.

Lemma saved_events_app (a b : list Event) :
  saved_events (a ++ b) = saved_events a ++ saved_events b.
Proof. apply List.filter_app. Qed.

Lemma frames_if {A} (R : World -> World -> Prop) (c : bool) (a b : M A) :
  frames R a -> frames R b -> frames R (if c then a else b).
Proof. by destruct c. Qed.

(** One step of a run: the step raises and the run ends in its world, or
    it goes on from the world it leaves. *)
Ltac frame_step H Hacc lem a w1 :=
  let Hm := fresh "Hm" in
  let Hn := fresh "Hacc" in
  apply bind_cases in H as [(? & Hm & ->)|(a & w1 & Hm & H)];
  [ left; split; [|eauto];
    apply (extends_saved false);
    eapply extends_trans; [exact Hacc|exact (lem _ _ _ Hm)]
  | assert (Hn := extends_trans _ _ _ _ _ Hacc (lem _ _ _ Hm));
    clear Hacc Hm; rename Hn into Hacc ].


End Effects.

Lemma loading_leaves_generator_witness :
  exists w' r,
    @loading sample_env (Some "out/") true "sherpaVsMG5"
      (Some x0_four) (Some x1_three) false false true true sample_world
      = (w', r) /\
    rng w' = rng sample_world /\ exists evs, trace w' = trace sample_world ++ evs.
Proof.
  eexists. eexists. split.
  - vm_compute. reflexivity.
  - eapply (@loading_leaves_generator sample_env (Some "out/") true "sherpaVsMG5"
              (Some x0_four) (Some x1_three) false true true sample_world).
    + by left.
    + vm_compute. reflexivity.
Defined.


(** *** When a call returns *)

Section Returning.

Context {E : Env}.

Lemma loading_split_rows
    (folder : option string) (plot : bool) (do : string) (x0 x1 : option DataFrame)
    (randomize save correlation preprocessing : bool)
    (w w' : World) (fr : L.t) :
  loading folder plot do x0 x1 randomize save correlation preprocessing w
    = (w', inr fr) ->
  4 <= shape0 (L.x fr).
Proof.
  intros H.
  apply loading_inr in H
    as (f' & u0 & u1 & v1 & v2 & v3 & v4 & v5 & v6 & X_rest & y_rest & H).
  destruct H as (_ & _ & _ & _ & _ & _ & _ & _ & Hs1 & Hs2 & _).
  apply train_test_split_inr in Hs1 as (_ & Hpos1 & Hf1 & _).
  apply train_test_split_inr in Hs2 as (_ & Hpos2 & _).
  rewrite n_test_40 in Hpos1, Hf1. rewrite n_test_50 in Hpos2.
  apply fancy_inr in Hf1 as [_ Hf1]. apply take_rows_length in Hf1.
  rewrite length_take in Hf1. fold (shape0 X_rest) in Hf1.
  pose proof (Nat.div_mod_eq (2 * shape0 (L.x fr) + 4) 5).
  pose proof (Nat.mod_upper_bound (2 * shape0 (L.x fr) + 4) 5).
  pose proof (Nat.div_mod_eq (shape0 X_rest + 1) 2).
  pose proof (Nat.mod_upper_bound (shape0 X_rest + 1) 2). lia.
Qed.

(** X3: a call on two tables returns only if the combined array has at
    least four rows; the class-0 block and the class-1 block have at most
    [n_target] rows each, so the second table has at least two rows. *)
Theorem loading_returns_four_rows
    (folder : option string) (plot : bool) (do : string) (t0 t1 : DataFrame)
    (randomize save correlation preprocessing : bool)
    (w w' : World) (fr : L.t) :
  loading folder plot do (Some t0) (Some t1) randomize save correlation
    preprocessing w = (w', inr fr) ->
  4 <= shape0 (L.x fr) /\
  shape0 (L.X0 fr) <= len t1 /\ shape0 (L.X1 fr) <= len t1 /\
  shape0 (L.x fr) = shape0 (L.X0 fr) + shape0 (L.X1 fr) /\
  2 <= len t1.
Proof.
  intros H.
  pose proof (loading_supplied_inr _ _ _ _ _ _ _ _ _ _ _ _ H)
    as (f & w1 & w2 & w3 & w4 & _ & _ & Hb & Hp & HX1 & _ & Hx & _).
  pose proof (loading_split_rows _ _ _ _ _ _ _ _ _ _ _ _ H) as H4.
  assert (H0 : shape0 (L.X0 fr) <= len t1).
  { apply balance_inr in Hb as [_ Hb]. destruct randomize.
    - destruct Hb as (idx & rz & _ & _ & -> & _).
      unfold shape0, slice_to. simpl. rewrite length_take. lia.
    - destruct Hb as (_ & -> & _).
      unfold shape0, slice_to. simpl. rewrite length_take. lia. }
  assert (H1 : shape0 (L.X1 fr) <= len t1).
  { rewrite HX1. change (shape0 (to_numpy (L.x1 fr))) with (len (L.x1 fr)).
    destruct preprocessing.
    - apply preprocess_inr in Hp as (f0 & f1 & a1 & a2 & Hf & _ & -> & _).
      apply filter_columns_inr in Hf as (_ & _ & _ & Hsub & _).
      unfold len. simpl. rewrite length_map. by apply sublist_length.
    - by destruct Hp as [_ ->]. }
  assert (Hsum : shape0 (L.x fr) = shape0 (L.X0 fr) + shape0 (L.X1 fr)).
  { rewrite Hx at 1. unfold shape0. simpl. by rewrite length_app. }
  repeat split; [done|done|done|done|lia].
Qed.

(** X4: with a folder, randomization, correlation, preprocessing and
    plotting off, a call on two tables returns exactly when the tables have
    the same number of columns and the class-0 slice and the second table
    have at least four rows together. *)
Theorem loading_plain_returns_iff
    (f do : string) (t0 t1 : DataFrame) (save : bool) (w : World) :
  permutation42_ok E ->
  (exists w' fr,
     loading (Some f) false do (Some t0) (Some t1) false save false false w
       = (w', inr fr)) <->
  length (columns t0) = length (columns t1) /\
  4 <= min (len t1) (len t0) + len t1.
Proof.
  intros Hperm. split.
  - intros (w' & fr & H).
    split; [by eapply loading_returns_equal_widths|].
    pose proof (loading_supplied_inr _ _ _ _ _ _ _ _ _ _ _ _ H)
      as (f' & w1 & w2 & w3 & w4 & _ & _ & Hb & Hp & HX1 & _ & Hx & _).
    apply loading_split_rows in H as H4.
    apply balance_inr in Hb as (_ & _ & HX0 & _). destruct Hp as [_ Hx1].
    rewrite Hx, HX0, HX1, Hx1 in H4. unfold shape0, len in *. simpl in H4.
    rewrite length_app, length_take in H4. lia.
  - intros [Hw Hn]. by apply loading_plain_returns.
Qed.

(** X5: when exactly one of the two tables is passed, the call raises
    [AttributeError] at [.values] of the missing one, whatever the
    scenario tag and the flags: the folder is made, no file is read, no
    number drawn. *)
Theorem loading_one_table_missing
    (f : string) (plot : bool) (do : string) (x0 x1 : option DataFrame)
    (randomize save correlation preprocessing : bool) (w : World) :
  x0 = None \/ x1 = None ->
  x0 <> None \/ x1 <> None ->
  loading (Some f) plot do x0 x1 randomize save correlation preprocessing w
    = ({| rng := rng w; trace := trace w ++ [MkDirs [(f ++ do)%string]] |},
       inl AttributeError).
Proof.
  intros Hnone Hsome. unfold loading. simpl str_add.
  erewrite bind_run by reflexivity.
  unfold create_missing_folders. erewrite bind_run by reflexivity.
  destruct (load_samples_supplied do x0 x1
              {| rng := rng w; trace := trace w ++ [MkDirs [(f ++ do)%string]] |}
              Hsome) as (lg & vs & Hl).
  erewrite bind_run by exact Hl. cbv beta iota zeta.
  destruct x1 as [t1|].
  - destruct x0 as [t0|]; [destruct Hnone; discriminate|].
    simpl attr. erewrite bind_run by reflexivity. reflexivity.
  - reflexivity.
Qed.

End Returning.

Lemma loading_returns_four_rows_witness :
  exists w' fr,
    @loading sample_env (Some "out/") false "qsf"
      (Some x0_short) (Some x1_three) false false false false sample_world
      = (w', inr fr) /\
    4 <= shape0 (L.x fr) /\ 2 <= len x1_three.
Proof.
  eexists. eexists. split.
  - vm_compute. reflexivity.
  - lazymatch goal with
    | |- 4 <= shape0 (L.x ?fr) /\ _ =>
        edestruct (fun w' => @loading_returns_four_rows sample_env
                     (Some "out/") false "qsf" x0_short x1_three
                     false false false false sample_world w' fr)
          as (H1 & _ & _ & _ & H2)
    end.
    + vm_compute. reflexivity.
    + split; assumption.
Defined.

Lemma loading_plain_returns_iff_witness :
  (exists w' fr,
     @loading sample_env (Some "out/") false "mur"
       (Some x0_short) (Some x1_three) false true false false sample_world
       = (w', inr fr)) /\
  length (columns x0_short) = length (columns x1_three) /\
  4 <= min (len x1_three) (len x0_short) + len x1_three.
Proof.
  assert (H : length (columns x0_short) = length (columns x1_three) /\
              4 <= min (len x1_three) (len x0_short) + len x1_three)
    by (split; [reflexivity | vm_compute; lia]).
  split; [|exact H].
  apply (@loading_plain_returns_iff sample_env "out/" "mur" x0_short x1_three
           true sample_world sample_permutation42_ok).
  exact H.
Defined.

Lemma loading_one_table_missing_witness :
  @loading sample_env (Some "out/") true "qsf" (Some x0_four) None
    true true true true sample_world
  = ({| rng := rng sample_world;
        trace := trace sample_world ++ [MkDirs ["out/qsf"]] |},
     inl AttributeError).
Proof.
  apply (@loading_one_table_missing sample_env "out/" true "qsf"
           (Some x0_four) None true true true true sample_world).
  - by right.
  - by left.
Defined.

(** *** Scenario tags and missing columns *)

Section Tags.

Context {E : Env}.

Lemma unknown_tag_eqb (do : string) :
  ~ known_tag do ->
  String.eqb do "sherpaVsMG5" = false /\ String.eqb do "mur" = false /\
  String.eqb do "qsf" = false.
Proof.
  intros H. unfold known_tag in H.
  repeat split; apply String.eqb_neq; intros ->; tauto.
Qed.

(** Under every tag, the first variable is the jet multiplicity. *)
Lemma load_samples_supplied_head (do : string) (x0 x1 : option DataFrame)
    (w : World) :
  x0 <> None \/ x1 <> None ->
  exists legend rest,
    load_samples do x0 x1 w = (w, inr (legend, "Njets" :: rest, x0, x1)).
Proof.
  intros H. unfold load_samples.
  destruct (String.eqb do "sherpaVsMG5"); [|destruct (String.eqb do "mur");
    [|destruct (String.eqb do "qsf")]];
    destruct x0, x1; try (destruct H; congruence); unfold ret; eauto.
Qed.

(** X6: under a scenario tag other than the three known ones, a call
    without tables raises [AttributeError] after making the folder, with
    no file read; a call with tables and [plot=True] never returns; and a
    call with tables that returns has worked with the six variables of the
    generator comparison and has no legend. *)
Theorem loading_unknown_tag
    (f do : string) (randomize save correlation preprocessing : bool)
    (w : World) :
  ~ known_tag do ->
  (forall plot : bool,
     loading (Some f) plot do None None randomize save correlation
       preprocessing w
     = ({| rng := rng w; trace := trace w ++ [MkDirs [(f ++ do)%string]] |},
        inl AttributeError)) /\
  (forall (x0 x1 : option DataFrame) (w' : World) (r : Exn + L.t),
     loading (Some f) true do x0 x1 randomize save correlation preprocessing w
       = (w', r) ->
     exists e, r = inl e) /\
  (forall (x0 x1 : option DataFrame) (w' : World) (fr : L.t),
     loading (Some f) false do x0 x1 randomize save correlation preprocessing w
       = (w', inr fr) ->
     L.variables fr = ["Njets"; "j1pT"; "j1eta"; "ptmiss"; "VpT"; "Veta"] /\
     L.legend fr = None).
Proof.
  intros Hu. apply unknown_tag_eqb in Hu as (H1 & H2 & H3).
  assert (Hl : forall x0 x1 w0,
            load_samples do x0 x1 w0
            = (w0, inr (None, ["Njets"; "j1pT"; "j1eta"; "ptmiss"; "VpT"; "Veta"],
                        x0, x1))).
  { intros x0 x1 w0. unfold load_samples. by rewrite H1, H2, H3. }
  split; [|split].
  - intros plot. unfold loading. simpl str_add.
    erewrite bind_run by reflexivity.
    unfold create_missing_folders. erewrite bind_run by reflexivity.
    erewrite bind_run by apply Hl. reflexivity.
  - intros x0 x1 w' r H. destruct r as [e|fr]; [eauto|]. exfalso.
    apply loading_inr in H
      as (f' & t0 & t1 & w1 & w2 & w3 & w4 & w5 & w6 & X_rest & y_rest & H).
    destruct H as (_ & Hload & _ & _ & _ & _ & _ & _ & _ & _ & _ & Hplot).
    rewrite Hl in Hload. inversion Hload as [[Hw Hlg Hvs Hx0 Hx1]].
    destruct Hplot as (l & Hlegend & _). congruence.
  - intros x0 x1 w' fr H.
    apply loading_inr in H
      as (f' & t0 & t1 & w1 & w2 & w3 & w4 & w5 & w6 & X_rest & y_rest & H).
    destruct H as (_ & Hload & _).
    rewrite Hl in Hload. by inversion Hload.
Qed.


End Tags.

Lemma loading_unknown_tag_witness :
  @loading sample_env (Some "out/") false "tag" None None
    false false true true sample_world
  = ({| rng := rng sample_world;
        trace := trace sample_world ++ [MkDirs ["out/tag"]] |},
     inl AttributeError).
Proof.
  destruct (@loading_unknown_tag sample_env "out/" "tag" false false true true
              sample_world) as [H _].
  - intros [H|[H|H]]; discriminate.
  - apply H.
Defined.


(** *** Edges of the preprocessing step *)

Section PreprocessEdges.

Context {E : Env}.

Lemma filter_columns_app (factor : Q) (pre rest : list string)
    (x0 x1 : DataFrame) (w : World) :
  filter_columns factor (pre ++ rest) x0 x1 w
  = bind (filter_columns factor pre x0 x1)
         (fun ab => filter_columns factor rest ab.1 ab.2) w.
Proof.
  revert x0 x1 w. induction pre as [|c pre IH]; intros x0 x1 w; simpl.
  - reflexivity.
  - unfold bind in *.
    destruct (filter_column factor c x0 x1 w) as [w1 [e|[a b]]]; [done|].
    apply IH.
Qed.

(** X8: if the variables up to some [v] name columns of both tables and
    [v] does not name a column of the first table, or of the second, the
    preprocessing step raises [KeyError] for [v]. *)
Theorem preprocess_missing_column
    (pre post : list string) (v : string) (x0 x1 : DataFrame) (w : World) :
  Forall (fun c => is_Some (index_of c (columns x0)) /\
                   is_Some (index_of c (columns x1))) pre ->
  index_of v (columns x0) = None \/ index_of v (columns x1) = None ->
  exists w', preprocess (pre ++ v :: post) x0 x1 w = (w', inl (KeyError v)).
Proof.
  intros Hpre Hv. unfold preprocess.
  do 3 (erewrite bind_run by reflexivity).
  match goal with
  | |- exists _, bind _ _ ?w0 = _ =>
      destruct (filter_columns_total 3 pre x0 x1 w0 Hpre) as (a & b & w1 & Hf)
  end.
  pose proof (filter_columns_inr _ _ _ _ _ _ _ _ Hf) as (Ha & Hb & _).
  exists w1. apply bind_fail. rewrite filter_columns_app.
  erewrite bind_run by exact Hf. simpl.
  apply bind_fail. unfold filter_column, get_column. rewrite Ha, Hb.
  destruct Hv as [Hv|Hv].
  - rewrite Hv. reflexivity.
  - rewrite Hv. destruct (index_of v (columns x0)) as [i|]; [|reflexivity].
    erewrite bind_run by reflexivity. reflexivity.
Qed.

Lemma Qsquare_nonneg (a : Q) : (0 <= a * a)%Q.
Proof.
  destruct (Qlt_le_dec a 0) as [Hneg|Hpos].
  - setoid_replace (a * a)%Q with ((- a) * (- a))%Q using relation Qeq by ring.
    apply Qmult_le_0_compat; lra.
  - by apply Qmult_le_0_compat.
Qed.

(** The mask of a column with NaN limits, or with limits that coincide,
    is all false. *)
Lemma within_degenerate (c s : list Q) (factor : Q) :
  (length s <= 1 \/ exists v, Forall (fun u => (u == v)%Q) s) ->
  Forall (fun b => b = false)
    (within c (upper_limit s factor) (lower_limit s factor)).
Proof.
  intros Hs. unfold within. apply Forall_forall. intros b Hb.
  apply list_elem_of_fmap in Hb as (x & -> & _).
  destruct Hs as [Hlen|(v & Hall)].
  - unfold upper_limit, var. destruct (mean s) as [m|]; [|done].
    apply Nat.leb_le in Hlen. by rewrite Hlen.
  - unfold upper_limit, lower_limit.
    destruct (mean s) as [m|] eqn:Hm; [|done].
    destruct (var s) as [vr|] eqn:Hvr; [|done].
    assert (Hz : (vr == 0)%Q).
    { unfold var in Hvr. rewrite Hm in Hvr.
      destruct (length s <=? 1)%nat eqn:Hl; [discriminate|].
      injection Hvr as <-.
      assert (Hmv : (m == v)%Q).
      { unfold mean in Hm. destruct s as [|u s']; [discriminate|].
        injection Hm as <-.
        assert (Hsum : forall l, Forall (fun u => (u == v)%Q) l ->
                  (Qsum l == v * Qof_nat (length l))%Q).
        { clear. induction 1 as [|u l Hu _ IH].
          - unfold Qsum, Qof_nat. simpl. change (inject_Z (Z.of_nat 0)) with 0%Q. lra.
          - rewrite Qsum_cons, IH, Hu. unfold Qof_nat.
            simpl length.
            rewrite Nat2Z.inj_succ, <- Z.add_1_r, inject_Z_plus.
            change (inject_Z 1) with 1%Q. lra. }
        rewrite (Hsum _ Hall). simpl length.
        assert (Hn : ~ (Qof_nat (S (length s')) == 0)%Q).
        { unfold Qof_nat. intros H0.
          apply (inject_Z_injective (Z.of_nat (S (length s'))) 0) in H0. lia. }
        generalize dependent (Qof_nat (S (length s'))). intros n Hn.
        field. exact Hn. }
      assert (Hsq : (Qsum (map (fun u => (m - u) * (m - u)) s) == 0)%Q).
      { clear Hl Hm. induction Hall as [|u l Hu _ IH].
        - reflexivity.
        - change (map (fun u0 => (m - u0) * (m - u0)) (u :: l))%Q
            with (((m - u) * (m - u))%Q :: map (fun u0 => ((m - u0) * (m - u0))%Q) l).
          rewrite Qsum_cons, IH, Hu, Hmv. lra. }
      rewrite Hsq. unfold Qdiv. lra. }
    unfold lt_upper, gt_lower. cbn [lim_mean lim_factor lim_var].
    destruct (Qltb (x - m) 0) eqn:H1; destruct (Qltb (m - x) 0) eqn:H2; simpl.
    + apply Qltb_lt in H1, H2. exfalso. clear - H1 H2. lra.
    + destruct (Qltb ((m - x) * (m - x)) (factor * factor * vr)) eqn:H3; [|done].
      apply Qltb_lt in H3. rewrite Hz in H3. exfalso. clear - H3.
      assert (H0 : (factor * factor * 0 == 0)%Q) by ring. rewrite H0 in H3.
      pose proof (Qsquare_nonneg (m - x)). lra.
    + destruct (Qltb ((x - m) * (x - m)) (factor * factor * vr)) eqn:H3; [|done].
      apply Qltb_lt in H3. rewrite Hz in H3. exfalso. clear - H3.
      assert (H0 : (factor * factor * 0 == 0)%Q) by ring. rewrite H0 in H3.
      pose proof (Qsquare_nonneg (x - m)). lra.
    + destruct (Qltb ((x - m) * (x - m)) (factor * factor * vr)) eqn:H3; [|done].
      apply Qltb_lt in H3. rewrite Hz in H3. exfalso. clear - H3.
      assert (H0 : (factor * factor * 0 == 0)%Q) by ring. rewrite H0 in H3.
      pose proof (Qsquare_nonneg (m - x)). lra.
Qed.

Lemma compress_all_false {A} (mask : list bool) (l : list A) :
  Forall (fun b => b = false) mask -> compress mask l = [].
Proof.
  intros H. revert l. induction H as [|b mask -> _ IH]; intros [|a l]; simpl; auto.
Qed.

Lemma get_column_length (df : DataFrame) (column : string) (c : list Q) :
  get_column df column = inr c -> length c = len df.
Proof.
  unfold get_column. destruct (index_of column (columns df)); [|discriminate].
  intros H. inversion H. by rewrite length_map.
Qed.


End PreprocessEdges.

Lemma preprocess_missing_column_witness :
  exists w',
    @preprocess sample_env ["Njets"; "j1pT"; "l1pT"; "l1eta"] x0_four x1_three
      sample_world = (w', inl (KeyError "l1pT")).
Proof.
  apply (@preprocess_missing_column sample_env ["Njets"; "j1pT"] ["l1eta"] "l1pT"
           x0_four x1_three sample_world).
  - repeat constructor; by eexists.
  - by left.
Defined.


(** *** The class-0 slices *)

Lemma take_rows_take {A} (k : nat) (idx : list nat) (l r : list A) :
  take_rows idx l = inr r -> take_rows (take k idx) l = inr (take k r).
Proof.
  intros H. pose proof (take_rows_length _ _ _ H) as Hlen.
  rewrite <- (take_drop k idx) in H.
  apply take_rows_app in H as (r1 & r2 & H1 & H2 & ->).
  rewrite H1. f_equal. symmetry.
  apply take_rows_length in H1, H2.
  rewrite length_take in H1. rewrite length_drop in H2.
  destruct (decide (k <= length idx)) as [Hk|Hk].
  - apply take_app_length'. lia.
  - destruct r2; [|simpl in H2; lia]. rewrite app_nil_r. apply take_ge. lia.
Qed.

Lemma take_rows_drop {A} (k : nat) (idx : list nat) (l r : list A) :
  take_rows idx l = inr r -> take_rows (drop k idx) l = inr (drop k r).
Proof.
  intros H. pose proof (take_rows_length _ _ _ H) as Hlen.
  rewrite <- (take_drop k idx) in H.
  apply take_rows_app in H as (r1 & r2 & H1 & H2 & ->).
  rewrite H2. f_equal. symmetry.
  apply take_rows_length in H1, H2.
  rewrite length_take in H1. rewrite length_drop in H2.
  destruct (decide (k <= length idx)) as [Hk|Hk].
  - apply drop_app_length'. lia.
  - destruct r2; [|simpl in H2; lia]. rewrite app_nil_r. apply drop_ge. lia.
Qed.

Section Slices.

Context {E : Env}.

(** X10: without randomization the class-0 train slice is the first
    [n_target] rows of the first table and the test slice its last
    [n_target] rows.  From [2 * n_target] rows on the two are disjoint
    stretches of the table; a table with no more than [n_target] rows is
    both slices whole; in between, the last [2 * n_target - len] rows of
    the train slice are the first rows of the test slice.  For
    [n_target = 0] the train slice is empty and the test slice is the
    whole table, since [-0] is [0]. *)
Theorem balance_slices (t0 : DataFrame) (n : nat) (w : World) :
  exists X0 X0_test,
    balance false t0 n w = (w, inr (X0, X0_test)) /\
    data X0 = take n (rows t0) /\
    (n = 0 -> data X0 = [] /\ data X0_test = rows t0) /\
    (0 < n -> 2 * n <= len t0 ->
     rows t0 = data X0 ++ take (len t0 - 2 * n) (drop n (rows t0)) ++ data X0_test) /\
    (len t0 <= n -> data X0 = rows t0 /\ (0 < n -> data X0_test = rows t0)) /\
    (n <= len t0 -> len t0 <= 2 * n -> 0 < n ->
     drop (len t0 - n) (data X0) = take (2 * n - len t0) (data X0_test)).
Proof.
  exists (slice_to n (values t0)), (slice_last n (values t0)).
  split; [reflexivity|]. unfold slice_to, slice_last, len. simpl.
  split; [reflexivity|]. split; [|split; [|split]].
  - intros ->. by rewrite take_0.
  - intros Hn H2. destruct (Nat.eqb_spec n 0) as [->|_]; [lia|].
    rewrite <- (take_drop n (rows t0)) at 1. f_equal.
    rewrite <- (take_drop (length (rows t0) - 2 * n) (drop n (rows t0))) at 1.
    f_equal. rewrite drop_drop. f_equal. lia.
  - intros Hle. split; [by apply take_ge|].
    intros Hn. destruct (Nat.eqb_spec n 0) as [->|_]; [lia|].
    replace (length (rows t0) - n) with 0 by lia. apply drop_0.
  - intros H1 H2 Hn. destruct (Nat.eqb_spec n 0) as [->|_]; [lia|].
    rewrite take_drop_commute. do 2 f_equal. lia.
Qed.

(** X11: with randomization, a call of the slicing step that completes
    has drawn [2 * n_target] positions in one draw from the generator; the
    train slice is the rows of the first table at the first [n_target]
    positions and the test slice the rows at the last [n_target], so each
    has [n_target] rows, all rows of the table.  On a table without rows
    the draw raises [ValueError] unless [n_target] is zero. *)
Theorem balance_randomized (t0 : DataFrame) (n : nat) (w : World) :
  randint_ok E ->
  (forall (X0 X0_test : ndarray) (w' : World),
     balance true t0 n w = (w', inr (X0, X0_test)) ->
     let idx := (randint (rng w) (len t0) (2 * n)).1 in
     rng w' = (randint (rng w) (len t0) (2 * n)).2 /\
     take_rows (take n idx) (rows t0) = inr (data X0) /\
     take_rows (drop n idx) (rows t0) = inr (data X0_test) /\
     shape0 X0 = n /\ shape0 X0_test = n /\
     Forall (fun r => r ∈ rows t0) (data X0 ++ data X0_test)) /\
  (len t0 = 0 -> 0 < n ->
   balance true t0 n w
   = (w, inl (ValueError "a cannot be empty unless no samples are taken"))).
Proof.
  intros Hri. split.
  - intros X0 X0_test w' H idx.
    apply balance_inr in H as (_ & i & rz & Hdraw & Hf & -> & ->).
    pose proof (Hri (rng w) (len t0) (2 * n)) as Hlen.
    unfold idx. rewrite <- Hdraw in *. simpl in *.
    apply fancy_inr in Hf as [_ Hf]. simpl in Hf.
    pose proof (take_rows_length _ _ _ Hf) as Hrz.
    split; [reflexivity|].
    split; [by apply take_rows_take|].
    assert (Hlast : (if (n =? 0)%nat then data rz
                     else drop (length (data rz) - n) (data rz))
                    = drop n (data rz)).
    { destruct (Nat.eqb_spec n 0) as [->|Hn]; [by rewrite drop_0|].
      f_equal. lia. }
    unfold slice_last, slice_to, shape0. simpl. rewrite Hlast.
    split; [by apply take_rows_drop|].
    rewrite length_take, length_drop.
    split; [lia|]. split; [lia|].
    rewrite take_drop. by apply take_rows_elem in Hf.
  - intros H0 Hn. unfold balance, choice.
    change (shape0 (values t0)) with (len t0). rewrite H0.
    destruct (Nat.eqb_spec (2 * n) 0) as [Hz|_]; [lia|]. reflexivity.
Qed.

End Slices.

Lemma balance_randomized_witness :
  exists X0 X0_test w',
    @balance sample_env true x0_four 3 sample_world = (w', inr (X0, X0_test)) /\
    shape0 X0 = 3 /\ shape0 X0_test = 3.
Proof.
  eexists. eexists. eexists. split.
  - vm_compute. reflexivity.
  - lazymatch goal with
    | |- shape0 ?X0 = _ /\ shape0 ?X0t = _ =>
        destruct (@balance_randomized sample_env x0_four 3 sample_world
                    sample_randint_ok) as [H _];
        edestruct (fun w' => H X0 X0t w') as (_ & _ & _ & H1 & H2 & _)
    end.
    + vm_compute. reflexivity.
    + split; assumption.
Defined.

(** *** Weights that cannot be resampled *)

Section BadWeights.

Context {E : Env}.

Lemma choice_p_raises (pop_size : nat) (size : Z) (p : option (list Q))
    (w w' : World) (e : Exn) :
  choice_p pop_size size p w = (w', inl e) ->
  (exists msg, e = ValueError msg) /\ trace w' = trace w.
Proof.
  unfold choice_p. intros H.
  destruct (_ && _) in H; [inversion H; eauto|].
  destruct p as [q|]; [|inversion H; eauto].
  destruct (negb _) in H; [inversion H; eauto|].
  destruct (existsb _ q) in H; [inversion H; eauto|].
  destruct (negb _) in H; [inversion H; eauto|].
  destruct (size <? 0)%Z in H; [inversion H; eauto|].
  apply bind_cases in H as [(e' & H & _)|(u & w1 & _ & H)].
  - unfold np_random_sample in H.
    destruct (random_sample (rng w) (Z.to_nat size)). discriminate.
  - discriminate.
Qed.

Lemma choice_p_bad_weights (pop_size : nat) (ws : list Q) (w : World) :
  bad_weights ws ->
  exists msg,
    choice_p pop_size (int_of_float (Qsum ws)) (series_div ws (Qsum ws)) w
    = (w, inl (ValueError msg)).
Proof.
  intros Hbad. unfold choice_p.
  destruct (_ && _); [eauto|].
  unfold series_div. destruct Hbad as [Hz|[Hpos Hneg]].
  - apply Qeq_bool_iff in Hz. rewrite Hz. eauto.
  - destruct (Qeq_bool (Qsum ws) 0) eqn:Hz.
    { apply Qeq_bool_iff in Hz. rewrite Hz in Hpos. by apply Qlt_irrefl in Hpos. }
    destruct (negb _); [eauto|].
    assert (Hex : existsb (fun v => Qltb v 0) (map (fun v => (v / Qsum ws)%Q) ws)
                  = true).
    { apply existsb_exists. apply Exists_exists in Hneg as (v & Hin & Hv).
      exists (v / Qsum ws)%Q. split.
      - apply in_map_iff. exists v. split; [done|]. by apply list_elem_of_In.
      - apply Qltb_lt. unfold Qdiv.
        assert (Hinv : (0 < / Qsum ws)%Q) by by apply Qinv_lt_0_compat.
        setoid_replace 0%Q with (0 * / Qsum ws)%Q using relation Qeq by ring.
        by apply Qmult_lt_compat_r. }
    rewrite Hex. eauto.
Qed.

(** X12: in the scenario [mur] with both tables read from the files, if
    the files are read and the weights of either file add up to zero, or
    add up to a positive number with a negative weight among them, the
    call of lines 78-105 raises [ValueError] in [np.random.choice]. *)
Theorem mur_rejects_bad_weights
    (t0 t1 wt0 wt1 : DataFrame) (ws0 ws1 : list Q) (w : World) :
  load "/eos/user/m/mvesterb/data/MUR1_MUF1_PDF261000.root"
    ["Njets"; "j1pT"; "j1eta"; "ptmiss"; "VpT"; "Veta"] = inr t0 ->
  load "/eos/user/m/mvesterb/data/MUR2_MUF1_PDF261000.root"
    ["Njets"; "j1pT"; "j1eta"; "ptmiss"; "VpT"; "Veta"] = inr t1 ->
  load "/eos/user/m/mvesterb/data/MUR1_MUF1_PDF261000.root" ["truthWeight"]
    = inr wt0 ->
  load "/eos/user/m/mvesterb/data/MUR2_MUF1_PDF261000.root" ["truthWeight"]
    = inr wt1 ->
  get_column wt0 "truthWeight" = inr ws0 ->
  get_column wt1 "truthWeight" = inr ws1 ->
  bad_weights ws0 \/ bad_weights ws1 ->
  exists w' msg,
    load_samples "mur" None None w = (w', inl (ValueError msg)).
Proof.
  intros Ht0 Ht1 Hwt0 Hwt1 Hws0 Hws1 Hbad.
  unfold load_samples.
  change (String.eqb "mur" "sherpaVsMG5") with false.
  change (String.eqb "mur" "mur") with true. cbv iota.
  unfold load_file.
  do 4 (erewrite bind_run;
        [|erewrite bind_run by (unfold lift; rewrite ?Ht0, ?Ht1, ?Hwt0, ?Hwt1;
                                reflexivity);
          erewrite bind_run by reflexivity; reflexivity]).
  unfold truthWeight. rewrite Hws0, Hws1.
  do 2 (erewrite bind_run by reflexivity).
  match goal with
  | |- exists _ _, bind (choice_p ?n ?s ?p) _ ?w0 = _ =>
      destruct (choice_p n s p w0) as [wa [e|i0]] eqn:Hc0
  end.
  - pose proof (choice_p_raises _ _ _ _ _ _ Hc0) as [(msg & ->) _].
    exists wa, msg. apply bind_fail. exact Hc0.
  - destruct Hbad as [Hbad|Hbad].
    + match type of Hc0 with
      | choice_p ?n _ _ ?w0 = _ =>
          destruct (choice_p_bad_weights n ws0 w0 Hbad) as (msg & Hc)
      end.
      rewrite Hc in Hc0. discriminate.
    + erewrite bind_run by exact Hc0.
      destruct (choice_p_bad_weights (len t1) ws1 wa Hbad) as (msg & Hc).
      exists wa, msg. apply bind_fail. exact Hc.
Qed.

End BadWeights.

Lemma mur_rejects_bad_weights_witness :
  exists w' msg,
    @load_samples (weights_env [2; -1]%Q [1; 1; 1]%Q) "mur" None None
      (@Build_World (weights_env [2; -1]%Q [1; 1; 1]%Q) 0 [])
    = (w', inl (ValueError msg)).
Proof.
  eapply (@mur_rejects_bad_weights (weights_env [2; -1]%Q [1; 1; 1]%Q));
    try reflexivity.
  left. right. split; [reflexivity|].
  apply Exists_cons_tl, Exists_cons_hd. reflexivity.
Defined.

(** *** The reporting operations *)

Lemma known_tag_eqb (do : string) :
  known_tag do <->
  (String.eqb do "sherpaVsMG5" || String.eqb do "mur" || String.eqb do "qsf") = true.
Proof.
  unfold known_tag. rewrite !orb_true_iff, !String.eqb_eq. tauto.
Qed.

Lemma result_config_legend (do : string) :
  known_tag do <-> exists legend, (result_config do).2 = Some legend.
Proof.
  rewrite known_tag_eqb. unfold result_config.
  destruct (String.eqb do "sherpaVsMG5"); [simpl; split; eauto|].
  destruct (String.eqb do "mur"); [simpl; split; eauto|].
  destruct (String.eqb do "qsf"); simpl; split; eauto.
  - discriminate.
  - intros [l H]. discriminate.
Qed.

Lemma Qsum_scale (ws : list Q) (d k : Q) :
  ~ (d == 0)%Q ->
  (Qsum (map (fun v => v / d * k) ws) == Qsum ws / d * k)%Q.
Proof.
  intros Hd. induction ws as [|v ws IH].
  - unfold Qsum. simpl. field. exact Hd.
  - change (map (fun v0 => v0 / d * k) (v :: ws))%Q
      with ((v / d * k)%Q :: map (fun v0 => (v0 / d * k)%Q) ws).
    rewrite !Qsum_cons, IH. field. exact Hd.
Qed.

Section ReportingProps.

Context {T : Tools}.

(** X13: [load_result] makes its two plot calls, the ROC curve first, or
    none at all; it makes them exactly when both arrays load, weights are
    given and the scenario tag is one of the three known ones.  Otherwise
    it raises: the loader's exception, [AttributeError] for
    [weights=None], [UnboundLocalError] for an unknown tag, in this
    order. *)
Theorem load_result_completes_iff
    (x0 x1 : Source) (weights : option (list Q)) (label : option string)
    (do : string) (save : bool) :
  ((load_result x0 x1 weights label do save).2 = None <->
   (exists X0 X1 ws,
      load_and_check x0 = inr X0 /\ load_and_check x1 = inr X1 /\
      weights = Some ws /\ known_tag do)) /\
  ((load_result x0 x1 weights label do save).2 = None ->
   exists X0 X1 ws legend,
     (load_result x0 x1 weights label do save).1
     = [draw_ROC X0 X1 ws label legend save;
        draw_weighted_distributions X0 X1 ws (result_config do).1.1.1
          (result_config do).1.1.2 (result_binning (result_config do).1.2)
          label legend save]) /\
  (forall e, (load_result x0 x1 weights label do save).2 = Some e ->
     (load_result x0 x1 weights label do save).1 = [] /\
     match load_and_check x0, load_and_check x1, weights with
     | inl e0, _, _ => e = e0
     | inr _, inl e1, _ => e = e1
     | inr _, inr _, None => e = AttributeError
     | inr _, inr _, Some _ => e = UnboundLocalError /\ ~ known_tag do
     end).
Proof.
  unfold load_result.
  pose proof (result_config_legend do) as Hk.
  destruct (result_config do) as [[[variables vlabels] etaX] legend]. simpl in Hk.
  destruct (load_and_check x0) as [e0|X0]; simpl.
  { split; [|split].
    - split; [discriminate|]. intros (? & ? & ? & ? & _). discriminate.
    - discriminate.
    - intros e H. inversion H. auto. }
  destruct (load_and_check x1) as [e1|X1]; simpl.
  { split; [|split].
    - split; [discriminate|]. intros (? & ? & ? & _ & ? & _). discriminate.
    - discriminate.
    - intros e H. inversion H. auto. }
  destruct weights as [ws|]; simpl.
  2:{ split; [|split].
      - split; [discriminate|]. intros (? & ? & ? & _ & _ & ? & _). discriminate.
      - discriminate.
      - intros e H. inversion H. auto. }
  destruct legend as [lg|]; simpl.
  - split; [|split].
    + split; [|done]. intros _. exists X0, X1, ws.
      repeat split; auto. apply Hk. eauto.
    + intros _. by exists X0, X1, (scale_weights ws (shape0 X1)), lg.
    + discriminate.
  - split; [|split].
    + split; [discriminate|]. intros (? & ? & ? & _ & _ & _ & Hkn).
      apply Hk in Hkn as [l Hl]. discriminate.
    + discriminate.
    + intros e H. inversion H. split; [done|]. split; [done|].
      intros Hkn. apply Hk in Hkn as [l Hl]. discriminate.
Qed.

(** X14: when [load_result] plots, both plots get the same weights: the
    given weights divided by their sum and multiplied by the row count of
    [X1].  If the given weights do not add up to zero, the weights plotted
    are as many as given and add up to the row count of [X1]. *)
Theorem load_result_weights
    (x0 x1 : Source) (ws : list Q) (label : option string)
    (do : string) (save : bool) (X0 X1 : ndarray) :
  load_and_check x0 = inr X0 -> load_and_check x1 = inr X1 ->
  known_tag do -> ~ (Qsum ws == 0)%Q ->
  exists legend ws',
    load_result x0 x1 (Some ws) label do save
    = ([draw_ROC X0 X1 (Some ws') label legend save;
        draw_weighted_distributions X0 X1 (Some ws') (result_config do).1.1.1
          (result_config do).1.1.2 (result_binning (result_config do).1.2)
          label legend save], None) /\
    ws' = map (fun v => v / Qsum ws * Qof_nat (shape0 X1))%Q ws /\
    length ws' = length ws /\
    (Qsum ws' == Qof_nat (shape0 X1))%Q.
Proof.
  intros H0 H1 Hk Hs. unfold load_result.
  apply result_config_legend in Hk as [lg Hlg].
  destruct (result_config do) as [[[variables vlabels] etaX] legend].
  simpl in Hlg. subst legend. rewrite H0, H1. simpl.
  exists lg, (map (fun v => v / Qsum ws * Qof_nat (shape0 X1))%Q ws).
  assert (Hsc : scale_weights ws (shape0 X1)
                = Some (map (fun v => v / Qsum ws * Qof_nat (shape0 X1))%Q ws)).
  { unfold scale_weights. destruct ws as [|v ws'].
    - exfalso. apply Hs. reflexivity.
    - destruct (Qeq_bool (Qsum (v :: ws')) 0) eqn:Hz; [|done].
      apply Qeq_bool_iff in Hz. contradiction. }
  rewrite Hsc. split; [done|]. split; [done|]. split; [by rewrite length_map|].
  rewrite Qsum_scale by done. field. exact Hs.
Qed.

End ReportingProps.

Lemma load_result_weights_witness :
  exists legend ws',
    @load_result sample_tools "x0_test.npy" "x1_train.npy" (Some [1; 2; 5]%Q)
      None "qsf" false
    = ([draw_ROC (values x0_four) (values x1_three) (Some ws') None legend false;
        draw_weighted_distributions (values x0_four) (values x1_three) (Some ws')
          (result_config "qsf").1.1.1 (result_config "qsf").1.1.2
          (result_binning (result_config "qsf").1.2) None legend false], None) /\
    ws' = map (fun v => v / Qsum [1; 2; 5] * Qof_nat 3)%Q [1; 2; 5]%Q /\
    length ws' = 3 /\
    (Qsum ws' == 3)%Q.
Proof.
  apply (@load_result_weights sample_tools "x0_test.npy" "x1_train.npy"
           [1; 2; 5]%Q None "qsf" false (values x0_four) (values x1_three)).
  - reflexivity.
  - reflexivity.
  - right. by right.
  - discriminate.
Defined.

Section Scenarios.

Context {E : Env}.

(** X15: [loading] and [load_result] agree on the variables and on the
    legend of every scenario tag, known or not: whenever the sample
    loading step of [loading] returns, with tables read from the files or
    supplied, its variables and legend are those of [load_result]. *)
Theorem scenario_tables_agree
    (do : string) (x0 x1 a b : option DataFrame)
    (legend : option (list string)) (variables : list string) (w w' : World) :
  load_samples do x0 x1 w = (w', inr (legend, variables, a, b)) ->
  legend = (result_config do).2 /\ variables = (result_config do).1.1.1.
Proof.
  unfold load_samples, result_config. intros H.
  destruct (String.eqb do "sherpaVsMG5");
    [|destruct (String.eqb do "mur"); [|destruct (String.eqb do "qsf")]];
    destruct x0, x1; minv;
    repeat match goal with
           | Hv : (_, _, _, _) = (_, _, _, _) |- _ => inversion Hv; clear Hv
           end; subst; by split.
Qed.

End Scenarios.

Lemma scenario_tables_agree_witness :
  exists w' a b,
    @load_samples sample_env "mur" None None sample_world
    = (w', inr (Some ["MUR1"; "MUR2"],
                ["Njets"; "j1pT"; "j1eta"; "ptmiss"; "VpT"; "Veta"], a, b)) /\
    Some ["MUR1"; "MUR2"] = (result_config "mur").2 /\
    ["Njets"; "j1pT"; "j1eta"; "ptmiss"; "VpT"; "Veta"] = (result_config "mur").1.1.1.
Proof.
  eexists _, _, _. split; [vm_compute; reflexivity|].
  eapply (@scenario_tables_agree sample_env "mur" None None _ _ _ _ sample_world).
  vm_compute. reflexivity.
Defined.

(** X16: in [load_result] every scenario has six variables and six
    sequences of histogram edges; it has six axis labels, except [qsf],
    which has eight labels for its six variables. *)
Theorem result_config_lengths (do : string) :
  length (result_config do).1.1.1 = 6 /\
  length (result_binning (result_config do).1.2) = 6 /\
  length (result_config do).1.1.2 = (if String.eqb do "qsf" then 8 else 6).
Proof.
  unfold result_config.
  destruct (String.eqb_spec do "sherpaVsMG5") as [->|H1]; [by repeat split|].
  destruct (String.eqb_spec do "mur") as [->|H2]; [by repeat split|].
  destruct (String.eqb do "qsf"); by repeat split.
Qed.

(** *** Rows and their labels through the splits *)

Lemma take_rows_zip {A B} (idx : list nat) (l a : list A) (m b : list B) :
  take_rows idx l = inr a -> take_rows idx m = inr b ->
  take_rows idx (zip l m) = inr (zip a b).
Proof.
  revert a b. induction idx as [|i idx IH]; cbn [take_rows]; intros a b Ha Hb.
  - by inversion Ha; inversion Hb.
  - rewrite lookup_zip_with.
    destruct (l !! i) as [x|]; [|discriminate].
    destruct (m !! i) as [y|]; [|discriminate].
    destruct (take_rows idx l) as [e|a'] eqn:Hl; [discriminate|].
    destruct (take_rows idx m) as [e|b'] eqn:Hm; [discriminate|].
    inversion Ha; inversion Hb; subst. simpl.
    by rewrite (IH a' b' eq_refl eq_refl).
Qed.

Lemma zip_replicate_r {A B} (l : list A) (v : B) :
  zip l (replicate (length l) v) = map (fun r => (r, v)) l.
Proof. induction l as [|a l IH]; simpl; [done|]. by rewrite IH. Qed.

Section Labels.

Context {E : Env}.
Hypothesis Hperm : permutation42_ok E.

Lemma train_test_split_labelled (x y : ndarray) (test_size : Q)
    (x_train x_test y_train y_test : ndarray) :
  train_test_split x y test_size = inr (x_train, x_test, y_train, y_test) ->
  Permutation (labelled x_train y_train ++ labelled x_test y_test) (labelled x y).
Proof.
  intros H.
  apply train_test_split_inr in H as (Hy & Hpos & H1 & H2 & H3 & H4).
  set (n := shape0 x) in *.
  set (n_test := Z.to_nat (Qceiling (test_size * Qof_nat n))) in *.
  pose proof (permutation42_length Hperm n) as Hlen.
  assert (Hdrop : take (n - n_test) (drop n_test (permutation42 n))
                  = drop n_test (permutation42 n)).
  { apply take_ge. rewrite length_drop. lia. }
  rewrite Hdrop in H1, H3.
  apply fancy_inr in H1 as [_ H1]. apply fancy_inr in H2 as [_ H2].
  apply fancy_inr in H3 as [_ H3]. apply fancy_inr in H4 as [_ H4].
  unfold labelled.
  eapply take_rows_permutation.
  - apply take_rows_app_inr; apply take_rows_zip; eassumption.
  - rewrite length_zip_with. fold (shape0 x) (shape0 y). rewrite Hy. fold n.
    rewrite Nat.min_id, Permutation_app_comm, take_drop. apply Hperm.
Qed.

(** X17: the two splits keep every row with its label.  In a call that
    returns, the rows of the train, validation and test parts, each taken
    with the label at its position, are together a rearrangement of the
    rows of the class-0 block labelled 0 and the rows of the class-1 block
    labelled 1. *)
Theorem loading_rows_keep_labels
    (folder : option string) (plot : bool) (do : string)
    (x0 x1 : option DataFrame) (randomize save correlation preprocessing : bool)
    (w w' : World) (fr : L.t) :
  loading folder plot do x0 x1 randomize save correlation preprocessing w
    = (w', inr fr) ->
  Permutation
    (labelled (L.X_train fr) (L.y_train fr) ++ labelled (L.X_val fr) (L.y_val fr)
     ++ labelled (L.X_test fr) (L.y_test fr))
    (map (fun r => (r, [0%Q])) (data (L.X0 fr))
     ++ map (fun r => (r, [1%Q])) (data (L.X1 fr))).
Proof.
  intros H.
  apply loading_inr in H
    as (f & t0 & t1 & w1 & w2 & w3 & w4 & w5 & w6 & X_rest & y_rest & H).
  destruct H as (_ & _ & _ & _ & _ & _ & _ & Hc & Hs1 & Hs2 & _).
  apply train_test_split_labelled in Hs1, Hs2.
  rewrite app_assoc, Hs2, Hs1.
  apply combine_inr in Hc as (_ & _ & -> & ->).
  unfold labelled, reshape_column, shape0. simpl.
  rewrite map_app, !(fmap_replicate (fun v : Q => [v])).
  rewrite zip_with_app by (by rewrite length_replicate).
  by rewrite !zip_replicate_r.
Qed.

End Labels.

Lemma loading_rows_keep_labels_witness :
  exists w' fr,
    @loading sample_env (Some "out/") false "qsf"
      (Some x0_four) (Some x1_three) false false false false sample_world
      = (w', inr fr) /\
    Permutation
      (labelled (L.X_train fr) (L.y_train fr) ++ labelled (L.X_val fr) (L.y_val fr)
       ++ labelled (L.X_test fr) (L.y_test fr))
      (map (fun r => (r, [0%Q])) (data (L.X0 fr))
       ++ map (fun r => (r, [1%Q])) (data (L.X1 fr))).
Proof.
  eexists. eexists. split.
  - vm_compute. reflexivity.
  - lazymatch goal with
    | |- Permutation (labelled (L.X_train ?fr) _ ++ _) _ =>
        eapply (fun w' => @loading_rows_keep_labels sample_env
                 sample_permutation42_ok (Some "out/") false "qsf"
                 (Some x0_four) (Some x1_three) false false false false
                 sample_world w' fr)
    end.
    vm_compute. reflexivity.
Defined.

(** *** The folder *)

Section Folder.

Context {E : Env}.

(** X18: a call with a folder makes the folder [folder + do] before
    anything else: whether the call returns or raises, and whatever the
    tables, the tag and the flags, the first thing it adds to the trace is
    the creation of that folder. *)
Theorem loading_makes_folder_first
    (f : string) (plot : bool) (do : string)
    (x0 x1 : option DataFrame) (randomize save correlation preprocessing : bool)
    (w w' : World) (r : Exn + L.t) :
  loading (Some f) plot do x0 x1 randomize save correlation preprocessing w
    = (w', r) ->
  exists evs, trace w' = trace w ++ MkDirs [(f ++ do)%string] :: evs.
Proof.
  intros H.
  assert (Hall : forall ev, is_saved ev = false -> (fun _ : Event => true) ev = true)
    by done.
  unfold loading in H. simpl str_add in H.
  erewrite bind_run in H by reflexivity.
  unfold create_missing_folders in H.
  apply bind_cases in H as [(e & Hm & ->)|(u & w1 & Hm & H)]; [discriminate|].
  apply emit_inr in Hm. subst w1.
  match type of H with
  | ?m _ = _ => assert (Hf : frames (extends false (fun _ => true)) m)
  end.
  { apply frames_bind; [by apply frames_load_samples|].
    intros [[[legend variables] o0] o1].
    apply frames_bind; [by apply frames_attr|]. intros t1.
    apply frames_bind; [by apply frames_attr|]. intros t0.
    apply frames_bind; [by apply frames_balance|]. intros [X0 X0_test].
    apply frames_bind.
    { destruct correlation; [by apply frames_correlation_plot|by apply frames_ret]. }
    intros _. apply frames_bind.
    { destruct preprocessing; [by apply frames_preprocess|by apply frames_ret]. }
    intros [x0' x1'].
    apply frames_bind; [by apply frames_combine|]. intros [x y].
    apply frames_bind; [by apply frames_lift|].
    intros [[[X_train X_test] y_train] y_test].
    apply frames_bind; [by apply frames_lift|].
    intros [[[X_train' X_val] y_train'] y_val].
    apply frames_bind; [by apply frames_save_arrays|].
    intros _. apply frames_bind.
    { destruct plot; [|by apply frames_ret].
      apply frames_bind; [by apply frames_draw|]. intros _. by apply frames_emit. }
    intros _. by apply frames_ret. }
  destruct (Hf _ _ _ H) as [_ (evs & Ht & _)]. simpl in Ht.
  exists evs. by rewrite Ht, <- app_assoc.
Qed.

End Folder.

Lemma loading_makes_folder_first_witness :
  exists w' r,
    @loading sample_env (Some "out/") true "other" (Some x0_four) (Some x1_three)
      true true false true sample_world = (w', r) /\
    exists evs, trace w' = trace sample_world ++ MkDirs ["out/other"] :: evs.
Proof.
  eexists. eexists. split.
  - vm_compute. reflexivity.
  - eapply (@loading_makes_folder_first sample_env "out/" true "other"
              (Some x0_four) (Some x1_three) true true false true sample_world).
    vm_compute. reflexivity.
Defined.

(** *** The weights of [load_result] up to a common factor *)

Lemma Qsum_mult (c : Q) (ws : list Q) :
  (Qsum (map (Qmult c) ws) == c * Qsum ws)%Q.
Proof.
  induction ws as [|v ws IH].
  - unfold Qsum. simpl. ring.
  - change (map (Qmult c) (v :: ws)) with ((c * v)%Q :: map (Qmult c) ws).
    rewrite !Qsum_cons, IH. ring.
Qed.

Lemma scale_weights_Some (ws : list Q) (n : nat) :
  ~ (Qsum ws == 0)%Q ->
  scale_weights ws n = Some (map (fun v => v / Qsum ws * Qof_nat n)%Q ws).
Proof.
  intros Hs. unfold scale_weights. destruct ws as [|v ws]; [done|].
  destruct (Qeq_bool (Qsum (v :: ws)) 0) eqn:Hz; [|done].
  apply Qeq_bool_iff in Hz. contradiction.
Qed.

(** X19: line 213 of [load_result] makes the plots independent of the
    scale of the weights: in exact arithmetic, weights multiplied by a
    common non-zero factor are normalized to the same values, when they do
    not add up to zero. *)
Theorem scale_weights_homogeneous (c : Q) (ws : list Q) (n : nat) :
  ~ (c == 0)%Q -> ~ (Qsum ws == 0)%Q ->
  exists a b,
    scale_weights ws n = Some a /\
    scale_weights (map (Qmult c) ws) n = Some b /\
    Forall2 Qeq a b.
Proof.
  intros Hc Hs.
  assert (Hcs : ~ (Qsum (map (Qmult c) ws) == 0)%Q).
  { rewrite Qsum_mult. intros H. apply Qmult_integral in H as [H|H]; contradiction. }
  eexists _, _. split; [by apply scale_weights_Some|].
  split; [by apply scale_weights_Some|].
  rewrite map_map.
  assert (Hgen : forall l : list Q,
            Forall2 Qeq (map (fun v => v / Qsum ws * Qof_nat n)%Q l)
              (map (fun v => c * v / Qsum (map (Qmult c) ws) * Qof_nat n)%Q l)).
  { induction l as [|v l IH]; simpl; constructor; [|exact IH].
    rewrite Qsum_mult. field. split; assumption. }
  apply Hgen.
Qed.

Lemma scale_weights_homogeneous_witness :
  exists a b,
    scale_weights [1; 2; 5]%Q 3 = Some a /\
    scale_weights (map (Qmult (7 # 2)) [1; 2; 5]%Q) 3 = Some b /\
    Forall2 Qeq a b.
Proof.
  apply (scale_weights_homogeneous (7 # 2) [1; 2; 5]%Q 3); discriminate.
Defined.
